(** * copilot-auto-continue: the activation loop and its session controller

    A shallow embedding of [src/auto-continue.js].  The script is one
    immediately-invoked function whose closure holds four variables
    ([lastClick], [intervalId], [observer], [paused]); everything else it
    touches belongs to the browser: the clock, the document, the timers, the
    mutation observers, the console and the panel it builds.  Closure and
    browser together form a [World], and every JavaScript function of the
    script is a computation in a state-and-exception monad over it.

    The second variant of the script ([src/unnamed/part_001], also embedded
    in the README) differs in presentation only: it appends a line to a log
    box after each click and prints no start/pause/stop messages. *)

From Stdlib Require Import ZArith List Bool String Ascii Lia.
Import ListNotations.

Open Scope Z_scope.

(* ================================================================== *)
(** ** JavaScript strings *)

(** A JavaScript string is a sequence of UTF-16 code units. *)
Module JSString.

Definition t : Type := list N.

(** An ASCII literal of the source as a JavaScript string. *)
Definition lit (s : string) : t := map N_of_ascii (list_ascii_of_string s).

(** [a === b] on two strings: same length, same code units. *)
Fixpoint strict_eq (a b : t) : bool :=
  match a, b with
  | [], [] => true
  | x :: a', y :: b' => N.eqb x y && strict_eq a' b'
  | _, _ => false
  end.

(** ECMAScript WhiteSpace: TAB, VT, FF, ZWNBSP and the Unicode space
    separators (category Zs). *)
Definition isWhiteSpace (c : N) : bool :=
  (N.eqb c 0x0009 || N.eqb c 0x000B || N.eqb c 0x000C || N.eqb c 0x0020
   || N.eqb c 0x00A0 || N.eqb c 0x1680
   || (N.leb 0x2000 c && N.leb c 0x200A)
   || N.eqb c 0x202F || N.eqb c 0x205F || N.eqb c 0x3000
   || N.eqb c 0xFEFF)%N.

(** ECMAScript LineTerminator: LF, CR, LS, PS. *)
Definition isLineTerminator (c : N) : bool :=
  (N.eqb c 0x000A || N.eqb c 0x000D || N.eqb c 0x2028 || N.eqb c 0x2029)%N.

(** What [String.prototype.trim] strips from both ends. *)
Definition isTrimmed (c : N) : bool := isWhiteSpace c || isLineTerminator c.

Fixpoint trimStart (s : t) : t :=
  match s with
  | [] => []
  | c :: s' => if isTrimmed c then trimStart s' else s
  end.

Definition trimEnd (s : t) : t := rev (trimStart (rev s)).

Definition trim (s : t) : t := trimEnd (trimStart s).

End JSString.

(* ================================================================== *)
(** ** The document *)

(** What [el.offsetParent] evaluates to.  An HTML element has [null] or
    its offset parent; an element of another namespace (an SVG [<a>], which
    the selector matches as well) has no such property, and the expression
    is [undefined]. *)
Inductive OffsetParent : Type :=
| undefined
| null
| parent (n : nat).

(** What the script reads of a DOM element.  [node] is the identity of
    the element; [click_method] says whether [el.click] is a function, as
    it is on every HTML element and is not on an SVG one. *)
Record Element : Type := mkElement {
  node         : nat;
  localName    : JSString.t;
  classList    : list JSString.t;
  offsetParent : OffsetParent;
  click_method : bool;
  textContent  : JSString.t
}.

Definition has_class (c : JSString.t) (el : Element) : bool :=
  existsb (JSString.strict_eq c) (classList el).

(** The compound selector ['a.monaco-button.monaco-text-button']. *)
Definition matches_selector (el : Element) : bool :=
  JSString.strict_eq (localName el) (JSString.lit "a")
  && has_class (JSString.lit "monaco-button") el
  && has_class (JSString.lit "monaco-text-button") el.

(* ================================================================== *)
(** ** The world: closure variables, panel, browser *)

(** Timer ids and observer objects are handles handed out by the browser.
    A timer id is an integer greater than zero, hence truthy. *)
Definition handle : Type := positive.

(** [const COOLDOWN_MS = 2500;] *)
Definition COOLDOWN_MS : Z := 2500.

(** The four [let] variables of the closure. *)
Record Vars : Type := mkVars {
  lastClick  : Z;
  intervalId : option handle;
  observer   : option handle;
  paused     : bool
}.

(** [let lastClick = 0; let intervalId = null; let observer = null;
     let paused = false;] *)
Definition initial_vars : Vars :=
  {| lastClick := 0; intervalId := None; observer := None; paused := false |}.

(** The three buttons whose [disabled] property the script writes, and
    whether the panel is in the document. *)
Record Panel : Type := mkPanel {
  startBtn_disabled : bool;
  pauseBtn_disabled : bool;
  stopBtn_disabled  : bool;
  panel_attached    : bool
}.

(** The part of the browser the script talks to. *)
Record Host : Type := mkHost {
  clock            : Z;                    (* what [Date.now()] returns *)
  document         : list Element;         (* all elements, in document order *)
  document_body    : bool;                 (* [document.body !== null] *)
  intervals        : list handle;          (* active [setInterval] timers of the script *)
  observing        : list handle;          (* observers with a live subscription *)
  next_handle      : handle;
  queries          : nat;                  (* [querySelectorAll] calls made so far *)
  clicked          : list (Z * Element);   (* [btn.click()] calls, newest first, with the clock *)
  console          : list string;          (* [console.log] lines, newest first *)
  stopAutoContinue : bool                  (* [window.stopAutoContinue] is defined *)
}.

Record World : Type := mkWorld {
  vars  : Vars;
  panel : Panel;
  host  : Host
}.

(** Field updates. *)
Definition with_vars (f : Vars -> Vars) (w : World) : World :=
  {| vars := f (vars w); panel := panel w; host := host w |}.
Definition with_panel (f : Panel -> Panel) (w : World) : World :=
  {| vars := vars w; panel := f (panel w); host := host w |}.
Definition with_host (f : Host -> Host) (w : World) : World :=
  {| vars := vars w; panel := panel w; host := f (host w) |}.

Definition set_lastClick (x : Z) (v : Vars) : Vars :=
  {| lastClick := x; intervalId := intervalId v; observer := observer v; paused := paused v |}.
Definition set_intervalId (x : option handle) (v : Vars) : Vars :=
  {| lastClick := lastClick v; intervalId := x; observer := observer v; paused := paused v |}.
Definition set_observer (x : option handle) (v : Vars) : Vars :=
  {| lastClick := lastClick v; intervalId := intervalId v; observer := x; paused := paused v |}.
Definition set_paused (x : bool) (v : Vars) : Vars :=
  {| lastClick := lastClick v; intervalId := intervalId v; observer := observer v; paused := x |}.

Definition set_disabled (s p t : bool) (pn : Panel) : Panel :=
  {| startBtn_disabled := s; pauseBtn_disabled := p; stopBtn_disabled := t;
     panel_attached := panel_attached pn |}.
Definition set_attached (b : bool) (pn : Panel) : Panel :=
  {| startBtn_disabled := startBtn_disabled pn; pauseBtn_disabled := pauseBtn_disabled pn;
     stopBtn_disabled := stopBtn_disabled pn; panel_attached := b |}.

Definition set_environment (now : Z) (doc : list Element) (h : Host) : Host :=
  {| clock := now; document := doc; document_body := document_body h;
     intervals := intervals h; observing := observing h; next_handle := next_handle h;
     queries := queries h; clicked := clicked h; console := console h;
     stopAutoContinue := stopAutoContinue h |}.
Definition set_body (b : bool) (h : Host) : Host :=
  {| clock := clock h; document := document h; document_body := b;
     intervals := intervals h; observing := observing h; next_handle := next_handle h;
     queries := queries h; clicked := clicked h; console := console h;
     stopAutoContinue := stopAutoContinue h |}.
Definition set_intervals (l : list handle) (h : Host) : Host :=
  {| clock := clock h; document := document h; document_body := document_body h;
     intervals := l; observing := observing h; next_handle := next_handle h;
     queries := queries h; clicked := clicked h; console := console h;
     stopAutoContinue := stopAutoContinue h |}.
Definition set_observing (l : list handle) (h : Host) : Host :=
  {| clock := clock h; document := document h; document_body := document_body h;
     intervals := intervals h; observing := l; next_handle := next_handle h;
     queries := queries h; clicked := clicked h; console := console h;
     stopAutoContinue := stopAutoContinue h |}.
Definition set_next_handle (n : handle) (h : Host) : Host :=
  {| clock := clock h; document := document h; document_body := document_body h;
     intervals := intervals h; observing := observing h; next_handle := n;
     queries := queries h; clicked := clicked h; console := console h;
     stopAutoContinue := stopAutoContinue h |}.
Definition set_queries (n : nat) (h : Host) : Host :=
  {| clock := clock h; document := document h; document_body := document_body h;
     intervals := intervals h; observing := observing h; next_handle := next_handle h;
     queries := n; clicked := clicked h; console := console h;
     stopAutoContinue := stopAutoContinue h |}.
Definition set_clicked (l : list (Z * Element)) (h : Host) : Host :=
  {| clock := clock h; document := document h; document_body := document_body h;
     intervals := intervals h; observing := observing h; next_handle := next_handle h;
     queries := queries h; clicked := l; console := console h;
     stopAutoContinue := stopAutoContinue h |}.
Definition set_console (l : list string) (h : Host) : Host :=
  {| clock := clock h; document := document h; document_body := document_body h;
     intervals := intervals h; observing := observing h; next_handle := next_handle h;
     queries := queries h; clicked := clicked h; console := l;
     stopAutoContinue := stopAutoContinue h |}.
Definition set_stopAutoContinue (b : bool) (h : Host) : Host :=
  {| clock := clock h; document := document h; document_body := document_body h;
     intervals := intervals h; observing := observing h; next_handle := next_handle h;
     queries := queries h; clicked := clicked h; console := console h;
     stopAutoContinue := b |}.

(* ================================================================== *)
(** ** Computations: state plus exceptions *)

Inductive Exn : Type :=
| TypeError (msg : string).

(** How a JavaScript call ends: it returns, or it throws.  Either way the
    writes it made before stay. *)
Inductive Completion (A : Type) : Type :=
| Returns (a : A)
| Throws (e : Exn).
Arguments Returns {A} a.
Arguments Throws {A} e.

Definition JS (A : Type) : Type := World -> Completion A * World.

Definition ret {A} (a : A) : JS A := fun w => (Returns a, w).

Definition throw {A} (e : Exn) : JS A := fun w => (Throws e, w).

Definition bind {A B} (m : JS A) (k : A -> JS B) : JS B :=
  fun w =>
    match m w with
    | (Returns a, w') => k a w'
    | (Throws e, w') => (Throws e, w')
    end.

Definition read {A} (f : World -> A) : JS A := fun w => (Returns (f w), w).

Definition write (f : World -> World) : JS unit := fun w => (Returns tt, f w).

Declare Scope js_scope.
Delimit Scope js_scope with js.
Notation "x <- m ;; k" := (bind m (fun x => k))
  (at level 61, m at next level, right associativity) : js_scope.
Notation "m ;; k" := (bind m (fun _ => k))
  (at level 61, right associativity) : js_scope.
Open Scope js_scope.

(** The world a computation leaves behind, whether it returned or threw. *)
Definition exec {A} (m : JS A) (w : World) : World := snd (m w).

(** Whether it returned. *)
Definition returns {A} (m : JS A) (w : World) : bool :=
  match fst (m w) with Returns _ => true | Throws _ => false end.

(* ================================================================== *)
(** ** Browser primitives used by the script *)

(** [Date.now()].  The readings are integers far below 2^53, where the
    subtraction of two JavaScript numbers is exact; they are taken in [Z]. *)
Definition Date_now : JS Z := read (fun w => clock (host w)).

(** [Array.from(document.querySelectorAll('a.monaco-button.monaco-text-button'))]:
    the matching elements, in document order. *)
Definition querySelectorAll : JS (list Element) :=
  fun w =>
    (Returns (filter matches_selector (document (host w))),
     with_host (fun h => set_queries (S (queries h)) h) w).

(** [btn.click()]: the call is a TypeError when the element has no such
    method. *)
Definition click (btn : Element) : JS unit :=
  if click_method btn
  then write (with_host (fun h => set_clicked ((clock h, btn) :: clicked h) h))
  else throw (TypeError "btn.click is not a function").

Definition console_log (line : string) : JS unit :=
  write (with_host (fun h => set_console (line :: console h) h)).

Definition fresh_handle : JS handle :=
  fun w =>
    let id := next_handle (host w) in
    (Returns id, with_host (set_next_handle (Pos.succ id)) w).

Definition without (id : handle) (l : list handle) : list handle :=
  filter (fun x => negb (Pos.eqb x id)) l.

(** [setInterval(clickIfFound, 1000)]: the one callback the script ever
    schedules.  The timer stays active until it is cleared. *)
Definition setInterval : JS handle :=
  id <- fresh_handle ;;
  write (with_host (fun h => set_intervals (id :: intervals h) h)) ;;
  ret id.

Definition clearInterval (id : handle) : JS unit :=
  write (with_host (fun h => set_intervals (without id (intervals h)) h)).

(** [new MutationObserver(clickIfFound)]: an object, not yet observing. *)
Definition new_MutationObserver : JS handle := fresh_handle.

(** [o.observe(document.body, { childList: true, subtree: true })] throws a
    TypeError when [document.body] is [null]. *)
Definition observe (o : handle) : JS unit :=
  body <- read (fun w => document_body (host w)) ;;
  if body
  then write (with_host (fun h => set_observing (o :: observing h) h))
  else throw (TypeError "parameter 1 is not of type 'Node'").

Definition disconnect (o : handle) : JS unit :=
  write (with_host (fun h => set_observing (without o (observing h)) h)).

(** A method call on the variable [observer], which is [null] until the
    first start. *)
Definition on_observer (method : handle -> JS unit) : JS unit :=
  o <- read (fun w => observer (vars w)) ;;
  match o with
  | Some h => method h
  | None => throw (TypeError "Cannot read properties of null")
  end.

(** [document.body.appendChild(panel)]. *)
Definition appendChild_panel : JS unit :=
  body <- read (fun w => document_body (host w)) ;;
  if body
  then write (with_panel (set_attached true))
  else throw (TypeError "Cannot read properties of null").

(** [panel.remove()]. *)
Definition panel_remove : JS unit := write (with_panel (set_attached false)).

(* ================================================================== *)
(** ** The script *)

(** [if (x)] on a variable holding [null] or a timer id. *)
Definition truthy (x : option handle) : bool :=
  match x with Some _ => true | None => false end.

(** [function isVisible(el){ return el.offsetParent !== null; }] *)
Definition isVisible (el : Element) : bool :=
  match offsetParent el with null => false | undefined | parent _ => true end.

(** [btn.textContent.trim() === 'Continue'] *)
Definition is_Continue (btn : Element) : bool :=
  JSString.strict_eq (JSString.trim (textContent btn)) (JSString.lit "Continue").

(** The statements of the loop body that follow a match:
    [btn.click(); lastClick = now; console.log('[auto] Clicked Continue');] *)
Definition activate (now : Z) (btn : Element) : JS unit :=
  click btn ;;
  write (with_vars (set_lastClick now)) ;;
  console_log "[auto] Clicked Continue".

(** The [for (const btn of buttons)] loop of [clickIfFound]: [continue]
    goes on with the rest, [break] ends the loop after the first match. *)
Fixpoint for_buttons (now : Z) (buttons : list Element) : JS unit :=
  match buttons with
  | [] => ret tt
  | btn :: rest =>
      if negb (isVisible btn) then for_buttons now rest
      else if is_Continue btn then activate now btn
      else for_buttons now rest
  end.

Definition clickIfFound : JS unit :=
  p <- read (fun w => paused (vars w)) ;;
  if p then ret tt else
  now <- Date_now ;;
  last <- read (fun w => lastClick (vars w)) ;;
  if now - last <? COOLDOWN_MS then ret tt else
  buttons <- querySelectorAll ;;
  for_buttons now buttons.

Definition updateButtons : JS unit :=
  id <- read (fun w => intervalId (vars w)) ;;
  p <- read (fun w => paused (vars w)) ;;
  write (with_panel (set_disabled (negb (negb (truthy id)))
                                  (negb (truthy id))
                                  (negb (truthy id) && negb p))).

Definition startAuto : JS unit :=
  id <- read (fun w => intervalId (vars w)) ;;
  if truthy id then ret tt else
  write (with_vars (set_paused false)) ;;
  id' <- setInterval ;;
  write (with_vars (set_intervalId (Some id'))) ;;
  o <- new_MutationObserver ;;
  write (with_vars (set_observer (Some o))) ;;
  on_observer observe ;;
  updateButtons ;;
  console_log "[auto] started".

Definition pauseAuto : JS unit :=
  id <- read (fun w => intervalId (vars w)) ;;
  match id with
  | None => ret tt
  | Some i =>
      clearInterval i ;;
      on_observer disconnect ;;
      write (with_vars (set_intervalId None)) ;;
      write (with_vars (set_paused true)) ;;
      updateButtons ;;
      console_log "[auto] paused"
  end.

Definition stopAuto : JS unit :=
  id <- read (fun w => intervalId (vars w)) ;;
  match id with
  | Some i =>
      clearInterval i ;;
      on_observer disconnect ;;
      write (with_vars (set_intervalId None))
  | None => ret tt
  end ;;
  write (with_vars (set_paused false)) ;;
  updateButtons ;;
  console_log "[auto] stopped".

(** [alert(...)] of a fixed text: nothing the script can observe. *)
Definition showHelp : JS unit := ret tt.

(** The statements the function body runs once the panel is built:
    [document.body.appendChild(panel); updateButtons(); startAuto();
     window.stopAutoContinue = stopAuto;] *)
Definition script : JS unit :=
  appendChild_panel ;;
  updateButtons ;;
  startAuto ;;
  write (with_host (set_stopAutoContinue true)).

(** The world the script is pasted into: fresh closure variables, buttons
    just created (a new button is enabled), nothing scheduled. *)
Definition pristine (body : bool) : World :=
  {| vars := initial_vars;
     panel := {| startBtn_disabled := false; pauseBtn_disabled := false;
                 stopBtn_disabled := false; panel_attached := false |};
     host := {| clock := 0; document := []; document_body := body;
                intervals := []; observing := []; next_handle := 1%positive;
                queries := 0; clicked := []; console := [];
                stopAutoContinue := false |} |}.

(** The world once the script has run (an uncaught exception ends it
    where it is thrown). *)
Definition loaded (body : bool) : World := exec script (pristine body).

(* ================================================================== *)
(** ** The event loop *)

Inductive Button : Type := Start | Pause | Stop | Help | Close.

(** [addEventListener('click', ...)] for the five buttons. *)
Definition listener (b : Button) : JS unit :=
  match b with
  | Start => startAuto
  | Pause => pauseAuto
  | Stop => stopAuto
  | Help => showHelp
  | Close => panel_remove
  end.

Definition disabled (b : Button) (w : World) : bool :=
  match b with
  | Start => startBtn_disabled (panel w)
  | Pause => pauseBtn_disabled (panel w)
  | Stop => stopBtn_disabled (panel w)
  | Help | Close => false
  end.

(** What can happen after the script has run.  A timer task or a mutation
    notification carries the clock and the document found when it runs. *)
Inductive Event : Type :=
| TimerTask (id : handle) (now : Z) (doc : list Element)
| MutationNotice (o : handle) (now : Z) (doc : list Element)
| Press (b : Button)
| Console_stopAutoContinue
| BodyReplaced (present : bool).

Definition mem (id : handle) (l : list handle) : bool := existsb (Pos.eqb id) l.

(** The clock and the document as a callback finds them. *)
Definition at_time (now : Z) (doc : list Element) (w : World) : World :=
  with_host (set_environment now doc) w.

(** One turn of the event loop.  A cleared timer and a disconnected observer
    run no callback; a click reaches a button only while the panel is in the
    document and the button is enabled; replacing [document.body] takes the
    panel, a child of the old body, out of the document.  An exception thrown
    by a callback is reported and dropped, its writes stay. *)
Definition dispatch (ev : Event) (w : World) : World :=
  match ev with
  | TimerTask id now doc =>
      let w1 := at_time now doc w in
      if mem id (intervals (host w)) then exec clickIfFound w1 else w1
  | MutationNotice o now doc =>
      let w1 := at_time now doc w in
      if mem o (observing (host w)) then exec clickIfFound w1 else w1
  | Press b =>
      if panel_attached (panel w) && negb (disabled b w)
      then exec (listener b) w else w
  | Console_stopAutoContinue =>
      if stopAutoContinue (host w) then exec stopAuto w else w
  | BodyReplaced present =>
      with_host (set_body present) (with_panel (set_attached false) w)
  end.

Definition run (evs : list Event) (w : World) : World :=
  fold_left (fun w ev => dispatch ev w) evs w.

(* ================================================================== *)
(** ** Session state *)

Inductive SessionState : Type := Stopped | Running | Paused.

(** The state the two variables [intervalId] and [paused] stand for; it is
    the reading [updateButtons] makes of them. *)
Definition session_state (w : World) : SessionState :=
  if truthy (intervalId (vars w)) then Running
  else if paused (vars w) then Paused else Stopped.

Definition is_Running (w : World) : bool :=
  match session_state w with Running => true | _ => false end.
Definition is_Paused (w : World) : bool :=
  match session_state w with Paused => true | _ => false end.

(** The elements a scan would accept, in document order. *)
Definition qualifies (el : Element) : bool :=
  matches_selector el && isVisible el && is_Continue el.

Definition qualifying (doc : list Element) : list Element := filter qualifies doc.

(** Test data: an HTML [<a>] and an SVG [<a>] with the two classes. *)
Definition anchor (n : nat) (shown : bool) (text : string) : Element :=
  {| node := n; localName := JSString.lit "a";
     classList := [JSString.lit "monaco-button"; JSString.lit "monaco-text-button"];
     offsetParent := if shown then parent 0%nat else null;
     click_method := true;
     textContent := JSString.lit text |}.

Definition svg_anchor (n : nat) (text : string) : Element :=
  {| node := n; localName := JSString.lit "a";
     classList := [JSString.lit "monaco-button"; JSString.lit "monaco-text-button"];
     offsetParent := undefined;
     click_method := false;
     textContent := JSString.lit text |}.

(* ================================================================== *)
(** ** Notions used in the statements *)

(** The world after the query, and after the activation of [btn]. *)
Definition queried (w : World) : World :=
  with_host (fun h => set_queries (S (queries h)) h) w.

Definition activated (btn : Element) (w : World) : World :=
  exec (activate (clock (host w)) btn) w.

(** What the session functions and the panel listeners leave alone: the
    scan's own state. *)
Definition scan_state (w : World) : Z * list (Z * Element) * nat :=
  (lastClick (vars w), clicked (host w), queries (host w)).

(** The clock readings of the activations made so far, newest first. *)
Definition activation_times (w : World) : list Z := map fst (clicked (host w)).

(** Each activation came at least [COOLDOWN_MS] after the one before it. *)
Fixpoint spaced (ts : list Z) : Prop :=
  match ts with
  | [] => True
  | t :: older =>
      match older with
      | [] => True
      | t' :: _ => COOLDOWN_MS <= t - t'
      end /\ spaced older
  end.

(** The cooldown window that opens at [t]. *)
Definition in_window (t a : Z) : bool := (t <=? a) && (a <? t + COOLDOWN_MS).

Definition activations_in_window (t : Z) (w : World) : list Z :=
  filter (in_window t) (activation_times w).

(** [lastClick] holds the clock reading of the newest activation, and its
    initial 0 before the first one. *)
Definition cooldown_ok (w : World) : Prop :=
  spaced (activation_times w) /\ lastClick (vars w) = hd 0 (activation_times w).

(** The part of the world a scan never writes. *)
Definition session_part (w : World)
  : option handle * option handle * bool * Panel * (bool * list handle * list handle * bool) :=
  (intervalId (vars w), observer (vars w), paused (vars w), panel w,
   (document_body (host w), intervals (host w), observing (host w),
    stopAutoContinue (host w))).

(** The trigger sources the browser holds are exactly those the variables
    say: one timer and one subscription while [intervalId] is set, none
    otherwise; and [paused] is only set while [intervalId] is [null]. *)
Definition triggers_match (w : World) : Prop :=
  match intervalId (vars w) with
  | Some i =>
      intervals (host w) = [i] /\ paused (vars w) = false /\
      exists o, observer (vars w) = Some o /\ observing (host w) = [o]
  | None => intervals (host w) = [] /\ observing (host w) = []
  end.

(** The panel is a child of [document.body]. *)
Definition panel_in_body (w : World) : Prop :=
  panel_attached (panel w) = true -> document_body (host w) = true.

(** The [disabled] flags are what [updateButtons] would write now. *)
Definition in_sync (w : World) : Prop :=
  startBtn_disabled (panel w) = is_Running w
  /\ pauseBtn_disabled (panel w) = negb (is_Running w)
  /\ stopBtn_disabled (panel w) = negb (is_Running w || is_Paused w).

Definition consistent (w : World) : Prop := triggers_match w /\ panel_in_body w.

(** Where the panel is, whether there is a body, whether the console
    command exists: no session function writes these. *)
Definition surroundings (w : World) : bool * bool * bool :=
  (panel_attached (panel w), document_body (host w), stopAutoContinue (host w)).

(** The worlds the script can be in: loaded, then any events. *)
Definition reachable (w : World) : Prop :=
  exists body evs, w = run evs (loaded body).

(** The buttons an operator can use: (Start, Pause, Stop). *)
Definition enablement (w : World) : bool * bool * bool :=
  (negb (startBtn_disabled (panel w)),
   negb (pauseBtn_disabled (panel w)),
   negb (stopBtn_disabled (panel w))).

(** The enablement the specification asks for, in its words: Start
    enabled only when not Running, Pause enabled only when Running, Stop
    enabled when Running or Paused. *)
Definition expected_enablement (s : SessionState) : bool * bool * bool :=
  match s with
  | Stopped => (true, false, false)
  | Running => (false, true, true)
  | Paused => (true, false, true)
  end.

(** Sample data: buttons of the host application and a few worlds. *)
Definition continue_button : Element := anchor 7 true "Continue".
Definition hidden_button : Element := anchor 1 false "Continue".
Definition continue_anyway_button : Element := anchor 2 true "Continue Anyway".
Definition lowercase_button : Element := anchor 3 true " continue ".
Definition padded_button : Element := anchor 4 true "  Continue  ".

Definition sample_document : list Element :=
  [hidden_button; continue_anyway_button; lowercase_button; padded_button; continue_button].

(** An SVG [<a>] with the two classes and the text, ahead of an HTML one. *)
Definition svg_button : Element := svg_anchor 5 "Continue".
Definition svg_first_document : list Element := [svg_button; continue_button].

Definition running_world : World := loaded true.
Definition paused_world : World := run [Press Pause] (loaded true).
Definition stopped_world : World := run [Press Stop] (loaded true).

Definition bodyless_world : World := run [Press Stop; BodyReplaced false] (loaded true).
Definition clicked_then_stopped_world : World :=
  run [TimerTask 1%positive 5000 [continue_button]; Press Stop] (loaded true).

(** The same world with the panel out of the document. *)
Definition detached (w : World) : World := with_panel (set_attached false) w.

(** The same world with one more console line. *)
Definition logged (line : string) (w : World) : World :=
  with_host (fun h => set_console (line :: console h) h) w.

(** Nothing of the script is in place: the variables are fresh, the panel
    is not in the document, the console command is not defined, and nothing
    has been scheduled, queried or clicked. *)
Definition inert (w : World) : Prop :=
  vars w = initial_vars
  /\ panel_attached (panel w) = false
  /\ stopAutoContinue (host w) = false
  /\ intervals (host w) = []
  /\ observing (host w) = []
  /\ clicked (host w) = []
  /\ queries (host w) = 0%nat
  /\ console (host w) = [].

(** The same world in which [document.body] is present or not. *)
Definition with_body (present : bool) (w : World) : World :=
  with_host (set_body present) w.

(* ================================================================== *)
(** ** The variant with a log box *)

(** [src/unnamed/part_001] adds a log box to the panel and a function
    [addLogEntry] that the scan calls after each click; its [startAuto],
    [pauseAuto] and [stopAuto] print nothing.  The log box is kept beside
    the world of the first script. *)
Module Variant.

(** What the browser supplies to the variant beyond the first script's
    world.  [new Date()] is evaluated after [btn.click()] and its handlers
    have run, later than the scan's own [Date.now()], so the clock may have
    moved on: [new_Date] is the reading it gets, left open as a function of
    the state the script is in when it asks (within a run no two such
    states are equal, the record of activations or the console having grown
    in between).  [toLocaleString] and [toISOString] render a reading; they
    depend on the browser's locale and time zone and are left open too. *)
Record Formats : Type := mkFormats {
  toLocaleString : Z -> JSString.t;
  toISOString    : Z -> string;
  new_Date       : World -> Z
}.

(** [logContainer] holds the text of its children, oldest first. *)
Record VWorld : Type := mkVWorld {
  base         : World;
  logContainer : list JSString.t
}.

Definition JSV (A : Type) : Type := VWorld -> Completion A * VWorld.

Definition vret {A} (a : A) : JSV A := fun v => (Returns a, v).

Definition vbind {A B} (m : JSV A) (k : A -> JSV B) : JSV B :=
  fun v =>
    match m v with
    | (Returns a, v') => k a v'
    | (Throws e, v') => (Throws e, v')
    end.

(** A computation of the first script, run beside the log box. *)
Definition lift {A} (m : JS A) : JSV A :=
  fun v =>
    match m (base v) with
    | (c, w) => (c, {| base := w; logContainer := logContainer v |})
    end.

Definition vexec {A} (m : JSV A) (v : VWorld) : VWorld := snd (m v).

Declare Scope jsv_scope.
Delimit Scope jsv_scope with jsv.
Notation "x <- m ;; k" := (vbind m (fun x => k))
  (at level 61, m at next level, right associativity) : jsv_scope.
Notation "m ;; k" := (vbind m (fun _ => k))
  (at level 61, right associativity) : jsv_scope.

(** [logContainer.appendChild(entry)] for a new [div] with the given text. *)
Definition appendChild_entry (text : JSString.t) : JSV unit :=
  fun v => (Returns tt, {| base := base v; logContainer := logContainer v ++ [text] |}).

(** The reading of a [new Date()]. *)
Definition Date_new (fmt : Formats) : JSV Z := lift (read (new_Date fmt)).

Definition addLogEntry (fmt : Formats) : JSV unit :=
  (t <- Date_new fmt ;;
   appendChild_entry (toLocaleString fmt t))%jsv.

(** [btn.click(); lastClick = now;
     console.log('[auto] Clicked Continue at', new Date().toISOString());
     addLogEntry();] *)
Definition activate (fmt : Formats) (now : Z) (btn : Element) : JSV unit :=
  (lift (click btn) ;;
   lift (write (with_vars (set_lastClick now))) ;;
   t <- Date_new fmt ;;
   lift (console_log ("[auto] Clicked Continue at " ++ toISOString fmt t)) ;;
   addLogEntry fmt)%jsv.

Fixpoint for_buttons (fmt : Formats) (now : Z) (buttons : list Element) : JSV unit :=
  match buttons with
  | [] => vret tt
  | btn :: rest =>
      if negb (isVisible btn) then for_buttons fmt now rest
      else if is_Continue btn then activate fmt now btn
      else for_buttons fmt now rest
  end.

Definition clickIfFound (fmt : Formats) : JSV unit :=
  (p <- lift (read (fun w => paused (vars w))) ;;
   if p then vret tt else
   now <- lift Date_now ;;
   last <- lift (read (fun w => lastClick (vars w))) ;;
   if now - last <? COOLDOWN_MS then vret tt else
   buttons <- lift querySelectorAll ;;
   for_buttons fmt now buttons)%jsv.

(** The three session functions touch nothing of the log box; they are
    those of the first script without the [console.log] at the end. *)
Definition startAuto : JS unit :=
  id <- read (fun w => intervalId (vars w)) ;;
  if truthy id then ret tt else
  write (with_vars (set_paused false)) ;;
  id' <- setInterval ;;
  write (with_vars (set_intervalId (Some id'))) ;;
  o <- new_MutationObserver ;;
  write (with_vars (set_observer (Some o))) ;;
  on_observer observe ;;
  updateButtons.

Definition pauseAuto : JS unit :=
  id <- read (fun w => intervalId (vars w)) ;;
  match id with
  | None => ret tt
  | Some i =>
      clearInterval i ;;
      on_observer disconnect ;;
      write (with_vars (set_intervalId None)) ;;
      write (with_vars (set_paused true)) ;;
      updateButtons
  end.

Definition stopAuto : JS unit :=
  id <- read (fun w => intervalId (vars w)) ;;
  match id with
  | Some i =>
      clearInterval i ;;
      on_observer disconnect ;;
      write (with_vars (set_intervalId None))
  | None => ret tt
  end ;;
  write (with_vars (set_paused false)) ;;
  updateButtons.

Definition script : JS unit :=
  appendChild_panel ;;
  updateButtons ;;
  startAuto ;;
  write (with_host (set_stopAutoContinue true)).

Definition pristine (body : bool) : VWorld :=
  {| base := pristine body; logContainer := [] |}.

Definition loaded (body : bool) : VWorld := vexec (lift script) (pristine body).

Definition listener (b : Button) : JS unit :=
  match b with
  | Start => startAuto
  | Pause => pauseAuto
  | Stop => stopAuto
  | Help => showHelp
  | Close => panel_remove
  end.

Definition at_time (now : Z) (doc : list Element) (v : VWorld) : VWorld :=
  {| base := at_time now doc (base v); logContainer := logContainer v |}.

Definition dispatch (fmt : Formats) (ev : Event) (v : VWorld) : VWorld :=
  match ev with
  | TimerTask id now doc =>
      let v1 := at_time now doc v in
      if mem id (intervals (host (base v))) then vexec (clickIfFound fmt) v1 else v1
  | MutationNotice o now doc =>
      let v1 := at_time now doc v in
      if mem o (observing (host (base v))) then vexec (clickIfFound fmt) v1 else v1
  | Press b =>
      if panel_attached (panel (base v)) && negb (disabled b (base v))
      then vexec (lift (listener b)) v else v
  | Console_stopAutoContinue =>
      if stopAutoContinue (host (base v)) then vexec (lift stopAuto) v else v
  | BodyReplaced present =>
      {| base := with_host (set_body present) (with_panel (set_attached false) (base v));
         logContainer := logContainer v |}
  end.

Definition run (fmt : Formats) (evs : list Event) (v : VWorld) : VWorld :=
  fold_left (fun v ev => dispatch fmt ev v) evs v.

End Variant.

(** A world without its console lines. *)
Definition quiet (w : World) : World := with_host (set_console []) w.

(** The variant's world after the first two statements that follow a
    match, and after the console line that follows them. *)
Definition variant_clicked (q : Element) (w : World) : World :=
  with_vars (set_lastClick (clock (host w)))
    (with_host (fun h => set_clicked ((clock h, q) :: clicked h) h) (queried w)).

Definition variant_printed (fmt : Variant.Formats) (q : Element) (w : World) : World :=
  logged ("[auto] Clicked Continue at "
          ++ Variant.toISOString fmt (Variant.new_Date fmt (variant_clicked q w)))
         (variant_clicked q w).

(** The log box has one line for each activation made. *)
Definition log_counts (v : Variant.VWorld) : Prop :=
  List.length (Variant.logContainer v) = List.length (clicked (host (Variant.base v))).

(* ================================================================== *)
(** ** Dragging the panel *)

(** [initDrag] and the two listeners it registers, the same in both
    scripts.  They use nothing of the session and the session uses nothing
    of them, so they get a world of their own: the four inline style
    properties of the panel that the code writes and the [mousemove] and
    [mouseup] listeners on [document]. *)
Module Drag.

(** JavaScript numbers with [+] and [-].  Coordinates are doubles and may
    be fractional; their arithmetic is left open. *)
Class Numbers : Type := {
  num : Type;
  add : num -> num -> num;
  sub : num -> num -> num
}.

(** A value of an inline style property: not set, ['auto'], the ['10px']
    of the initial [cssText], or [n + 'px'] for a number [n]. *)
Inductive Css `{Numbers} : Type :=
| Unset
| Auto
| TenPx
| Px (n : num).

Record Style `{Numbers} : Type := mkStyle {
  style_left   : Css;
  style_top    : Css;
  style_right  : Css;
  style_bottom : Css
}.

(** What [initDrag] reads of its event and of [getBoundingClientRect()]. *)
Record MouseEvent `{Numbers} : Type := mkMouseEvent {
  clientX : num;
  clientY : num
}.

Record Rect `{Numbers} : Type := mkRect {
  rect_left : num;
  rect_top  : num
}.

(** One call of [initDrag] creates one pair of function objects
    [onMouseMove], [onMouseUp] over the same four constants.  [grab]
    tells the pairs of different calls apart, as the identity of the
    function objects does for [removeEventListener]. *)
Record Closure `{Numbers} : Type := mkClosure {
  grab   : nat;
  startX : num;
  startY : num;
  origX  : num;
  origY  : num
}.

Record Page `{Numbers} : Type := mkPage {
  style     : Style;
  mousemove : list Closure;   (* [onMouseMove] listeners on [document], in order *)
  mouseup   : list Closure;   (* [onMouseUp] listeners on [document], in order *)
  next_grab : nat
}.

(** ['position:fixed; right:10px; bottom:10px; ...'], no listener yet. *)
Definition initial `{Numbers} : Page :=
  {| style := {| style_left := Unset; style_top := Unset;
                 style_right := TenPx; style_bottom := TenPx |};
     mousemove := []; mouseup := []; next_grab := 0 |}.

Definition registered `{Numbers} (c : Closure) (l : list Closure) : bool :=
  existsb (fun c' => Nat.eqb (grab c') (grab c)) l.

Definition unregister `{Numbers} (c : Closure) (l : list Closure) : list Closure :=
  filter (fun c' => negb (Nat.eqb (grab c') (grab c))) l.

(** [panel.style.left = origX + (e.clientX - startX) + 'px';
     panel.style.top  = origY + (e.clientY - startY) + 'px';] *)
Definition onMouseMove `{Numbers} (c : Closure) (e : MouseEvent) (p : Page) : Page :=
  {| style := {| style_left := Px (add (origX c) (sub (clientX e) (startX c)));
                 style_top := Px (add (origY c) (sub (clientY e) (startY c)));
                 style_right := style_right (style p);
                 style_bottom := style_bottom (style p) |};
     mousemove := mousemove p; mouseup := mouseup p; next_grab := next_grab p |}.

(** [document.removeEventListener('mousemove', onMouseMove);
     document.removeEventListener('mouseup', onMouseUp);] *)
Definition onMouseUp `{Numbers} (c : Closure) (p : Page) : Page :=
  {| style := style p;
     mousemove := unregister c (mousemove p);
     mouseup := unregister c (mouseup p);
     next_grab := next_grab p |}.

(** [initDrag(e)], with the rectangle [panel.getBoundingClientRect()]
    returns when it is called.  ([e.preventDefault()] writes nothing the
    code reads.) *)
Definition initDrag `{Numbers} (e : MouseEvent) (rect : Rect) (p : Page) : Page :=
  let c := {| grab := next_grab p;
              startX := clientX e; startY := clientY e;
              origX := rect_left rect; origY := rect_top rect |} in
  {| style := {| style_left := Px (rect_left rect); style_top := Px (rect_top rect);
                 style_right := Auto; style_bottom := Auto |};
     mousemove := mousemove p ++ [c];
     mouseup := mouseup p ++ [c];
     next_grab := S (next_grab p) |}.

(** Mouse events that reach their listeners: a [mousedown] on the drag
    handle, a [mousemove] or a [mouseup] that arrives at [document]. *)
Inductive Mouse `{Numbers} : Type :=
| MouseDown (e : MouseEvent) (rect : Rect)
| MouseMove (e : MouseEvent)
| MouseUp (e : MouseEvent).

(** The listeners registered when the event arrives are called in the
    order they were added; one removed in the meantime is skipped. *)
Definition dispatch `{Numbers} (ev : Mouse) (p : Page) : Page :=
  match ev with
  | MouseDown e rect => initDrag e rect p
  | MouseMove e =>
      fold_left (fun p c => if registered c (mousemove p) then onMouseMove c e p else p)
                (mousemove p) p
  | MouseUp _ =>
      fold_left (fun p c => if registered c (mouseup p) then onMouseUp c p else p)
                (mouseup p) p
  end.

Definition run `{Numbers} (evs : list Mouse) (p : Page) : Page :=
  fold_left (fun p ev => dispatch ev p) evs p.

Definition is_MouseDown `{Numbers} (ev : Mouse) : bool :=
  match ev with MouseDown _ _ => true | _ => false end.

Definition is_MouseMove `{Numbers} (ev : Mouse) : bool :=
  match ev with MouseMove _ => true | _ => false end.

(** Whole-number coordinates, on which the arithmetic of doubles is that
    of the integers; used for examples. *)
Definition whole_numbers : Numbers := {| num := Z; add := Z.add; sub := Z.sub |}.

Definition pointer_at (x y : Z) : @MouseEvent whole_numbers :=
  @mkMouseEvent whole_numbers x y.

Definition rect_at (l t : Z) : @Rect whole_numbers := @mkRect whole_numbers l t.

End Drag.

(* ================================================================== *)
(** ** What one scan does *)

Lemma strict_eq_true_iff (a b : JSString.t) :
  JSString.strict_eq a b = true <-> a = b.
Proof.
  revert b; induction a as [|x a IH]; intros [|y b]; simpl; split;
    try congruence; try reflexivity.
  - intros H; apply andb_true_iff in H as [Hx Hab].
    apply N.eqb_eq in Hx; apply IH in Hab; congruence.
  - intros H; injection H as -> ->.
    rewrite N.eqb_refl; simpl; now apply IH.
Qed.

Lemma is_Continue_true_iff (el : Element) :
  is_Continue el = true <->
  JSString.trim (textContent el) = JSString.lit "Continue".
Proof. unfold is_Continue; apply strict_eq_true_iff. Qed.

(** [trimStart] removes a prefix of strippable code units, and what it
    returns does not start with one. *)
Lemma trimStart_prefix (s : JSString.t) :
  exists ws, s = ws ++ JSString.trimStart s /\ forallb JSString.isTrimmed ws = true.
Proof.
  induction s as [|c s [ws [Hs Hws]]]; simpl.
  - exists []; auto.
  - destruct (JSString.isTrimmed c) eqn:Hc.
    + exists (c :: ws); simpl; rewrite Hc, Hws; split; [f_equal; exact Hs|reflexivity].
    + exists []; auto.
Qed.

Lemma trimStart_head (s : JSString.t) (c : N) (r : JSString.t) :
  JSString.trimStart s = c :: r -> JSString.isTrimmed c = false.
Proof.
  induction s as [|d s IH]; simpl; [discriminate|].
  destruct (JSString.isTrimmed d) eqn:Hd; [exact IH|].
  intros H; injection H as -> _; exact Hd.
Qed.

(** [trim] returns the middle of the string: what is cut off on either
    side consists of white space and line terminators only. *)
Lemma trim_middle (s : JSString.t) :
  exists l r, s = l ++ JSString.trim s ++ r
              /\ forallb JSString.isTrimmed l = true
              /\ forallb JSString.isTrimmed r = true.
Proof.
  unfold JSString.trim, JSString.trimEnd.
  destruct (trimStart_prefix s) as [l [Hl Hlw]].
  destruct (trimStart_prefix (rev (JSString.trimStart s))) as [r [Hr Hrw]].
  exists l, (rev r); repeat split; auto.
  - rewrite <- rev_app_distr, <- Hr, rev_involutive; exact Hl.
  - rewrite forallb_forall in *; intros x Hx; apply Hrw, in_rev; exact Hx.
Qed.

(** The loop stops at the first visible button whose trimmed text is
    ['Continue'], and does nothing when there is none. *)
Lemma for_buttons_find (now : Z) (buttons : list Element) (w : World) :
  for_buttons now buttons w =
  match find (fun b => isVisible b && is_Continue b) buttons with
  | Some b => activate now b w
  | None => (Returns tt, w)
  end.
Proof.
  induction buttons as [|b rest IH]; simpl; [reflexivity|].
  destruct (isVisible b); simpl; [|exact IH].
  destruct (is_Continue b); [reflexivity|exact IH].
Qed.

Lemma find_filter {A} (p q : A -> bool) (l : list A) :
  find p (filter q l) = hd_error (filter (fun x => q x && p x) l).
Proof.
  induction l as [|x l IH]; simpl; [reflexivity|].
  destruct (q x); simpl; [|exact IH].
  destruct (p x); simpl; [reflexivity|exact IH].
Qed.

Lemma qualifying_filter (doc : list Element) :
  filter (fun x => matches_selector x && (isVisible x && is_Continue x)) doc
  = qualifying doc.
Proof.
  unfold qualifying; apply filter_ext; intros x; unfold qualifies.
  now rewrite andb_assoc.
Qed.

(** The three statements after a match: a click that cannot be made ends
    them before anything is written. *)
Lemma activate_eq (now : Z) (btn : Element) (w : World) :
  activate now btn w =
  if click_method btn
  then (Returns tt,
        logged "[auto] Clicked Continue"
          (with_vars (set_lastClick now)
             (with_host (fun h => set_clicked ((clock h, btn) :: clicked h) h) w)))
  else (Throws (TypeError "btn.click is not a function"), w).
Proof.
  unfold activate, click, bind, write, throw, console_log, logged.
  destruct (click_method btn); reflexivity.
Qed.

Lemma activated_eq (btn : Element) (w : World) :
  activated btn w =
  if click_method btn
  then logged "[auto] Clicked Continue"
         (with_vars (set_lastClick (clock (host w)))
            (with_host (fun h => set_clicked ((clock h, btn) :: clicked h) h) w))
  else w.
Proof.
  unfold activated, exec; rewrite activate_eq.
  destruct (click_method btn); reflexivity.
Qed.

(** [clickIfFound] in one equation: two gates, then the first qualifying
    element of the document, if any. *)
Lemma clickIfFound_eq (w : World) :
  clickIfFound w =
  if paused (vars w) then (Returns tt, w)
  else if clock (host w) - lastClick (vars w) <? COOLDOWN_MS then (Returns tt, w)
  else match qualifying (document (host w)) with
       | q :: _ => activate (clock (host w)) q (queried w)
       | [] => (Returns tt, queried w)
       end.
Proof.
  unfold clickIfFound, bind, read, Date_now, ret; cbn.
  destruct (paused (vars w)); [reflexivity|]; cbn.
  destruct (clock (host w) - lastClick (vars w) <? COOLDOWN_MS); [reflexivity|].
  unfold querySelectorAll; rewrite for_buttons_find, find_filter, qualifying_filter.
  fold (queried w).
  destruct (qualifying (document (host w))) as [|q l]; reflexivity.
Qed.

(** The world a scan leaves behind, whether it returned or threw. *)
Lemma clickIfFound_exec (w : World) :
  exec clickIfFound w =
  if paused (vars w) then w
  else if clock (host w) - lastClick (vars w) <? COOLDOWN_MS then w
  else match qualifying (document (host w)) with
       | q :: _ => activated q (queried w)
       | [] => queried w
       end.
Proof.
  unfold exec; rewrite clickIfFound_eq.
  destruct (paused (vars w)); [reflexivity|].
  destruct (_ <? _); [reflexivity|].
  destruct (qualifying _); reflexivity.
Qed.

(* ================================================================== *)
(** ** Proof support *)

(** Name the fields of a world. *)
Ltac fields w :=
  destruct w as [[last iid obs psd] [sdis pdis tdis att]
                 [clk doc body ivs obsv nh qs clks cons exposed]].

(** Unfold the session functions and the primitives under them. *)
Ltac js_unfold :=
  unfold script, listener, startAuto, pauseAuto, stopAuto, updateButtons, showHelp,
    setInterval, clearInterval, new_MutationObserver, fresh_handle,
    on_observer, observe, disconnect, console_log, appendChild_panel,
    panel_remove, activate, activated, queried, click,
    bind, read, write, ret, throw, exec, returns,
    with_vars, with_panel, with_host in *.

Ltac js := js_unfold; cbn in *.

Lemma startAuto_scan_state (w : World) : scan_state (exec startAuto w) = scan_state w.
Proof. fields w; js; destruct iid, body; reflexivity. Qed.

Lemma pauseAuto_scan_state (w : World) : scan_state (exec pauseAuto w) = scan_state w.
Proof. fields w; js; destruct iid, obs; reflexivity. Qed.

Lemma stopAuto_scan_state (w : World) : scan_state (exec stopAuto w) = scan_state w.
Proof. fields w; js; destruct iid, obs; reflexivity. Qed.

Lemma listener_scan_state (b : Button) (w : World) :
  scan_state (exec (listener b) w) = scan_state w.
Proof.
  destruct b; simpl.
  - apply startAuto_scan_state.
  - apply pauseAuto_scan_state.
  - apply stopAuto_scan_state.
  - reflexivity.
  - reflexivity.
Qed.

Lemma script_scan_state (w : World) : scan_state (exec script w) = scan_state w.
Proof. fields w; js; destruct body, iid; reflexivity. Qed.

(* ================================================================== *)
(** ** The cooldown *)

Lemma spaced_older (t : Z) (older : list Z) :
  spaced (t :: older) -> Forall (fun a => a <= t - COOLDOWN_MS) older.
Proof.
  revert t; induction older as [|t' older IH]; intros t [Hgap Hsp]; constructor.
  - lia.
  - specialize (IH t' Hsp).
    eapply Forall_impl; [|exact IH].
    unfold COOLDOWN_MS in *; simpl; intros a Ha; lia.
Qed.

Lemma window_holds_one (t : Z) (ts : list Z) :
  spaced ts -> (List.length (filter (in_window t) ts) <= 1)%nat.
Proof.
  induction ts as [|a older IH]; intros Hsp; simpl; [lia|].
  destruct (in_window t a) eqn:Ha; [|apply IH, Hsp].
  assert (Hnone : filter (in_window t) older = []).
  { apply spaced_older in Hsp; clear IH.
    induction Hsp as [|b older' Hb _ IH']; simpl; [reflexivity|].
    assert (in_window t b = false) as ->; [|apply IH'].
    unfold in_window in *.
    apply andb_true_iff in Ha as [Hlo Hhi].
    apply Z.leb_le in Hlo. apply Z.ltb_lt in Hhi.
    apply andb_false_iff; left; apply Z.leb_gt; lia. }
  rewrite Hnone; simpl; lia.
Qed.

Lemma cooldown_ok_of_scan_state (w w' : World) :
  scan_state w' = scan_state w -> cooldown_ok w -> cooldown_ok w'.
Proof.
  unfold scan_state, cooldown_ok, activation_times.
  intros H; injection H as -> -> _; auto.
Qed.

Lemma clickIfFound_cooldown_ok (w : World) :
  cooldown_ok w -> cooldown_ok (exec clickIfFound w).
Proof.
  rewrite clickIfFound_exec.
  destruct (paused (vars w)); [auto|].
  destruct (clock (host w) - lastClick (vars w) <? COOLDOWN_MS) eqn:Hgate; [auto|].
  apply Z.ltb_ge in Hgate.
  destruct (qualifying (document (host w))) as [|q rest]; [auto|].
  rewrite activated_eq; destruct (click_method q); [|auto].
  unfold cooldown_ok, activation_times, logged; fields w; js.
  intros [Hsp Hlast]; repeat split; auto.
  destruct clks as [|[t' e'] older]; simpl in *; [exact I|]; subst; lia.
Qed.

Lemma dispatch_cooldown_ok (ev : Event) (w : World) :
  cooldown_ok w -> cooldown_ok (dispatch ev w).
Proof.
  intros H; destruct ev as [id now doc|o now doc|b| |present]; simpl.
  - destruct (mem id _); [apply clickIfFound_cooldown_ok|]; exact H.
  - destruct (mem o _); [apply clickIfFound_cooldown_ok|]; exact H.
  - destruct (_ && _); [|exact H].
    eapply cooldown_ok_of_scan_state; [apply listener_scan_state|exact H].
  - destruct (stopAutoContinue _); [|exact H].
    eapply cooldown_ok_of_scan_state; [apply stopAuto_scan_state|exact H].
  - exact H.
Qed.

Lemma run_cooldown_ok (evs : list Event) (w : World) :
  cooldown_ok w -> cooldown_ok (run evs w).
Proof.
  revert w; induction evs as [|ev evs IH]; intros w H; simpl; [exact H|].
  apply IH, dispatch_cooldown_ok, H.
Qed.

Lemma loaded_cooldown_ok (body : bool) : cooldown_ok (loaded body).
Proof. destruct body; repeat split. Qed.

(* ================================================================== *)
(** ** The session: variables, trigger sources, buttons *)

Lemma clickIfFound_session_part (w : World) :
  session_part (exec clickIfFound w) = session_part w.
Proof.
  rewrite clickIfFound_exec.
  destruct (paused (vars w)); [reflexivity|].
  destruct (_ <? _); [reflexivity|].
  destruct (qualifying _) as [|q rest]; [reflexivity|].
  rewrite activated_eq; destruct (click_method q); reflexivity.
Qed.

Lemma session_part_triggers_match (w w' : World) :
  session_part w' = session_part w -> triggers_match w -> triggers_match w'.
Proof.
  unfold session_part, triggers_match; intros H.
  injection H as -> -> -> _ _ -> -> _; auto.
Qed.

Lemma session_part_panel_in_body (w w' : World) :
  session_part w' = session_part w -> panel_in_body w -> panel_in_body w'.
Proof.
  unfold session_part, panel_in_body; intros H.
  injection H as _ _ _ -> -> _ _ _; auto.
Qed.

Lemma session_part_in_sync (w w' : World) :
  session_part w' = session_part w -> in_sync w -> in_sync w'.
Proof.
  unfold session_part, in_sync, is_Running, is_Paused, session_state; intros H.
  injection H as -> _ -> -> _ _ _ _; auto.
Qed.

Lemma startAuto_triggers_match (w : World) :
  triggers_match w ->
  document_body (host w) = true \/ session_state w = Running ->
  triggers_match (exec startAuto w).
Proof.
  unfold triggers_match, session_state; fields w; js.
  destruct iid as [i|]; simpl; [auto|].
  intros [-> ->] [->|H]; [|destruct psd; discriminate].
  cbn; eauto.
Qed.

Lemma pauseAuto_triggers_match (w : World) :
  triggers_match w -> triggers_match (exec pauseAuto w).
Proof.
  unfold triggers_match; fields w; js.
  destruct iid as [i|]; simpl; [|auto].
  intros [-> [-> [o [-> ->]]]]; unfold without; cbn.
  rewrite !Pos.eqb_refl; cbn; auto.
Qed.

Lemma stopAuto_triggers_match (w : World) :
  triggers_match w -> triggers_match (exec stopAuto w).
Proof.
  unfold triggers_match; fields w; js.
  destruct iid as [i|]; simpl; [|auto].
  intros [-> [-> [o [-> ->]]]]; unfold without; cbn.
  rewrite !Pos.eqb_refl; cbn; auto.
Qed.

Lemma updateButtons_in_sync (w : World) : in_sync (exec updateButtons w).
Proof.
  unfold in_sync, is_Running, is_Paused, session_state; fields w; js.
  destruct iid, psd; auto.
Qed.

(** A session function that returns leaves the buttons as
    [updateButtons] writes them, provided they were so before. *)
Lemma startAuto_in_sync (w : World) :
  in_sync w -> returns startAuto w = true -> in_sync (exec startAuto w).
Proof.
  unfold in_sync, is_Running, is_Paused, session_state; fields w; js.
  destruct iid as [i|]; simpl; [auto|].
  destruct body; cbn; [auto|discriminate].
Qed.

Lemma pauseAuto_in_sync (w : World) :
  in_sync w -> returns pauseAuto w = true -> in_sync (exec pauseAuto w).
Proof.
  unfold in_sync, is_Running, is_Paused, session_state; fields w; js.
  destruct iid as [i|]; simpl; [|auto].
  destruct obs; cbn; [auto|discriminate].
Qed.

Lemma stopAuto_in_sync (w : World) :
  returns stopAuto w = true -> in_sync (exec stopAuto w).
Proof.
  unfold in_sync, is_Running, is_Paused, session_state; fields w; js.
  destruct iid as [i|]; simpl; [|auto].
  destruct obs; cbn; [auto|discriminate].
Qed.

Lemma startAuto_returns (w : World) :
  document_body (host w) = true \/ session_state w = Running ->
  returns startAuto w = true.
Proof.
  unfold session_state; fields w; js.
  destruct iid; simpl; [reflexivity|].
  intros [->|H]; [reflexivity|destruct psd; discriminate].
Qed.

Lemma pauseAuto_returns (w : World) :
  triggers_match w -> returns pauseAuto w = true.
Proof.
  unfold triggers_match; fields w; js.
  destruct iid; simpl; [|reflexivity].
  now intros [_ [_ [o [-> _]]]].
Qed.

Lemma stopAuto_returns (w : World) :
  triggers_match w -> returns stopAuto w = true.
Proof.
  unfold triggers_match; fields w; js.
  destruct iid; simpl; [|reflexivity].
  now intros [_ [_ [o [-> _]]]].
Qed.

Lemma startAuto_surroundings (w : World) : surroundings (exec startAuto w) = surroundings w.
Proof. fields w; js; destruct iid, body; reflexivity. Qed.

Lemma pauseAuto_surroundings (w : World) : surroundings (exec pauseAuto w) = surroundings w.
Proof. fields w; js; destruct iid, obs; reflexivity. Qed.

Lemma stopAuto_surroundings (w : World) : surroundings (exec stopAuto w) = surroundings w.
Proof. fields w; js; destruct iid, obs; reflexivity. Qed.

Lemma surroundings_panel_in_body (w w' : World) :
  surroundings w' = surroundings w -> panel_in_body w -> panel_in_body w'.
Proof. unfold surroundings, panel_in_body; intros H; injection H as -> -> _; auto. Qed.

Lemma dispatch_consistent (ev : Event) (w : World) :
  consistent w -> consistent (dispatch ev w).
Proof.
  intros [Ht Hb]; destruct ev as [id now doc|o now doc|b| |present]; simpl.
  - destruct (mem id _); [|split; assumption].
    split; [eapply session_part_triggers_match|eapply session_part_panel_in_body];
      try apply clickIfFound_session_part; assumption.
  - destruct (mem o _); [|split; assumption].
    split; [eapply session_part_triggers_match|eapply session_part_panel_in_body];
      try apply clickIfFound_session_part; assumption.
  - destruct (panel_attached (panel w)) eqn:Hatt; simpl; [|split; assumption].
    destruct (negb (disabled b w)); [|split; assumption].
    destruct b; simpl.
    + split; [apply startAuto_triggers_match; auto|].
      eapply surroundings_panel_in_body; [apply startAuto_surroundings|assumption].
    + split; [apply pauseAuto_triggers_match; auto|].
      eapply surroundings_panel_in_body; [apply pauseAuto_surroundings|assumption].
    + split; [apply stopAuto_triggers_match; auto|].
      eapply surroundings_panel_in_body; [apply stopAuto_surroundings|assumption].
    + split; assumption.
    + split; [exact Ht|intros H; discriminate H].
  - destruct (stopAutoContinue _); [|split; assumption].
    split; [apply stopAuto_triggers_match; auto|].
    eapply surroundings_panel_in_body; [apply stopAuto_surroundings|assumption].
  - split; [exact Ht|intros H; discriminate H].
Qed.

Lemma dispatch_in_sync (ev : Event) (w : World) :
  consistent w -> in_sync w -> in_sync (dispatch ev w).
Proof.
  intros [Ht Hb] Hs; destruct ev as [id now doc|o now doc|b| |present]; simpl.
  - destruct (mem id _); [|exact Hs].
    eapply session_part_in_sync; [apply clickIfFound_session_part|exact Hs].
  - destruct (mem o _); [|exact Hs].
    eapply session_part_in_sync; [apply clickIfFound_session_part|exact Hs].
  - destruct (panel_attached (panel w)) eqn:Hatt; simpl; [|exact Hs].
    destruct (negb (disabled b w)); [|exact Hs].
    destruct b; simpl.
    + apply startAuto_in_sync; [exact Hs|apply startAuto_returns; auto].
    + apply pauseAuto_in_sync; [exact Hs|apply pauseAuto_returns, Ht].
    + apply stopAuto_in_sync, stopAuto_returns, Ht.
    + exact Hs.
    + exact Hs.
  - destruct (stopAutoContinue _); [|exact Hs].
    apply stopAuto_in_sync, stopAuto_returns, Ht.
  - exact Hs.
Qed.

Lemma run_consistent (evs : list Event) (w : World) :
  consistent w -> consistent (run evs w).
Proof.
  revert w; induction evs as [|ev evs IH]; intros w H; simpl; [exact H|].
  apply IH, dispatch_consistent, H.
Qed.

Lemma run_in_sync (evs : list Event) (w : World) :
  consistent w -> in_sync w -> in_sync (run evs w).
Proof.
  revert w; induction evs as [|ev evs IH]; intros w Hc Hs; simpl; [exact Hs|].
  apply IH; [apply dispatch_consistent, Hc|apply dispatch_in_sync; assumption].
Qed.

Lemma loaded_consistent (body : bool) : consistent (loaded body).
Proof.
  destruct body; split; cbv; try (intros; discriminate); eauto 6.
Qed.

Lemma loaded_in_sync : in_sync (loaded true).
Proof. repeat split. Qed.

Lemma reachable_consistent (w : World) : reachable w -> consistent w.
Proof. intros [body [evs ->]]; apply run_consistent, loaded_consistent. Qed.

Lemma run_app (evs evs' : list Event) (w : World) :
  run (evs ++ evs') w = run evs' (run evs w).
Proof. apply fold_left_app. Qed.

(** While the session is not running no trigger source exists, so no
    timer task and no mutation notice reaches [clickIfFound]. *)
Lemma idle_triggers (w : World) :
  triggers_match w -> session_state w <> Running ->
  intervals (host w) = [] /\ observing (host w) = [].
Proof.
  unfold triggers_match, session_state.
  destruct (intervalId (vars w)); simpl; [congruence|auto].
Qed.

(* ================================================================== *)
(** ** The cooldown invariant *)

(** C1.  Whatever events occur after the script has run (timer tasks and
    mutation notices with any clock reading and any document, button
    presses, the console command), every cooldown window [t, t + COOLDOWN_MS)
    holds at most one activation, and [lastClick] is the clock reading of the
    newest activation (its initial 0 while there is none). *)
Theorem cooldown_one_activation_per_window :
  forall (body : bool) (evs : list Event) (t : Z),
    let w := run evs (loaded body) in
    (List.length (activations_in_window t w) <= 1)%nat
    /\ lastClick (vars w) = hd 0 (activation_times w).
Proof.
  intros body evs t w.
  destruct (run_cooldown_ok evs (loaded body) (loaded_cooldown_ok body)) as [Hsp Hlast].
  split; [apply window_holds_one, Hsp|exact Hlast].
Qed.

(* ================================================================== *)
(** ** The gates of a scan *)

Lemma at_time_session_part (now : Z) (doc : list Element) (w : World) :
  session_part (at_time now doc w) = session_part w.
Proof. reflexivity. Qed.

Lemma idle_dispatch (w : World) (o : handle) (now : Z) (doc : list Element) :
  triggers_match w -> session_state w <> Running ->
  dispatch (TimerTask o now doc) w = at_time now doc w
  /\ dispatch (MutationNotice o now doc) w = at_time now doc w.
Proof.
  intros Ht Hs; destruct (idle_triggers w Ht Hs) as [Hi Ho].
  simpl; now rewrite Hi, Ho.
Qed.

(** C2, as the code has it.  A scan made while [paused] is set returns at
    once: no query, no activation, no write.  While the session is Stopped
    or Paused no trigger source is left, so a timer task or a mutation
    notice runs no scan at all; the scan itself does not look at
    [intervalId]. *)
Theorem scan_gated_by_paused_and_by_detached_triggers :
  forall w : World,
    (paused (vars w) = true -> clickIfFound w = (Returns tt, w))
    /\ (reachable w -> session_state w <> Running ->
        forall (o : handle) (now : Z) (doc : list Element),
          dispatch (TimerTask o now doc) w = at_time now doc w
          /\ dispatch (MutationNotice o now doc) w = at_time now doc w).
Proof.
  intros w; split.
  - intros Hp; rewrite clickIfFound_eq, Hp; reflexivity.
  - intros Hr Hs o now doc.
    apply idle_dispatch; [apply reachable_consistent, Hr|exact Hs].
Qed.

Lemma scan_gated_witness :
  clickIfFound (at_time 5000 sample_document paused_world)
  = (Returns tt, at_time 5000 sample_document paused_world)
  /\ dispatch (TimerTask 1%positive 5000 sample_document) stopped_world
     = at_time 5000 sample_document stopped_world.
Proof.
  split.
  - apply (scan_gated_by_paused_and_by_detached_triggers
             (at_time 5000 sample_document paused_world)); reflexivity.
  - apply (scan_gated_by_paused_and_by_detached_triggers stopped_world).
    + exists true, [Press Stop]; reflexivity.
    + discriminate.
Defined.

(** C2 fails for the Stopped state: called there with the cooldown over
    and a qualifying element in the document, the scan queries the
    document, clicks the element and moves [lastClick]. *)
Lemma scan_not_gated_when_stopped :
  session_state (at_time 5000 [continue_button] stopped_world) = Stopped
  /\ queries (host (exec clickIfFound (at_time 5000 [continue_button] stopped_world))) = 1%nat
  /\ clicked (host (exec clickIfFound (at_time 5000 [continue_button] stopped_world)))
     = [(5000, continue_button)]
  /\ lastClick (vars (exec clickIfFound (at_time 5000 [continue_button] stopped_world))) = 5000
  /\ ~ (forall w : World,
          session_state w <> Running -> clickIfFound w = (Returns tt, w)).
Proof.
  repeat split.
  intros H.
  specialize (H (at_time 5000 [continue_button] stopped_world)).
  discriminate H; discriminate.
Qed.

(* ================================================================== *)
(** ** The target of a scan *)

Lemma qualifying_first (doc : list Element) (q : Element) (rest : list Element) :
  qualifying doc = q :: rest ->
  exists before after,
    doc = before ++ q :: after /\ qualifying before = [] /\ qualifies q = true.
Proof.
  unfold qualifying; induction doc as [|e doc IH]; simpl; [discriminate|].
  destruct (qualifies e) eqn:He.
  - intros H; injection H as -> _.
    exists [], doc; auto.
  - intros H; destruct (IH H) as [before [after [-> [Hb Hq]]]].
    exists (e :: before), after; simpl; rewrite He; auto.
Qed.

Lemma scan_clicks (w : World) :
  clicked (host (exec clickIfFound w)) =
  if paused (vars w) then clicked (host w)
  else if clock (host w) - lastClick (vars w) <? COOLDOWN_MS then clicked (host w)
  else match qualifying (document (host w)) with
       | q :: _ =>
           if click_method q then (clock (host w), q) :: clicked (host w)
           else clicked (host w)
       | [] => clicked (host w)
       end.
Proof.
  rewrite clickIfFound_exec.
  destruct (paused (vars w)); [reflexivity|].
  destruct (_ <? _); [reflexivity|].
  destruct (qualifying _) as [|q rest]; [reflexivity|].
  rewrite activated_eq; destruct (click_method q); reflexivity.
Qed.

Lemma scan_returns (w : World) :
  returns clickIfFound w =
  if paused (vars w) then true
  else if clock (host w) - lastClick (vars w) <? COOLDOWN_MS then true
  else match qualifying (document (host w)) with
       | q :: _ => click_method q
       | [] => true
       end.
Proof.
  unfold returns; rewrite clickIfFound_eq.
  destruct (paused (vars w)); [reflexivity|].
  destruct (_ <? _); [reflexivity|].
  destruct (qualifying _) as [|q rest]; [reflexivity|].
  rewrite activate_eq; destruct (click_method q); reflexivity.
Qed.

Lemma scan_lastClick_kept (w : World) :
  clicked (host (exec clickIfFound w)) = clicked (host w) ->
  lastClick (vars (exec clickIfFound w)) = lastClick (vars w).
Proof.
  rewrite scan_clicks, clickIfFound_exec.
  destruct (paused (vars w)); [reflexivity|].
  destruct (_ <? _); [reflexivity|].
  destruct (qualifying _) as [|q rest]; [reflexivity|].
  rewrite activated_eq; destruct (click_method q); [|reflexivity].
  intros H; symmetry in H; apply (f_equal (@List.length _)) in H; simpl in H; lia.
Qed.

(** C3, as the code has it.  In a scan that gets as far as the matcher
    (not paused, cooldown over) and whose document has qualifying elements
    [q :: rest], the scan acts on [q] alone, the qualifying element before
    which the document has no other, and makes at most one activation.  If
    [q] has a [click] method, as every HTML element has, the scan returns
    and exactly [q] is activated.  If it has none, [btn.click()] throws: the
    scan ends there, nothing is activated, not even a later qualifying
    element, and [lastClick] stays. *)
Theorem first_qualifying_element_is_activated :
  forall (w : World) (q : Element) (rest : list Element),
    paused (vars w) = false ->
    COOLDOWN_MS <= clock (host w) - lastClick (vars w) ->
    qualifying (document (host w)) = q :: rest ->
    (exists before after,
        document (host w) = before ++ q :: after /\ qualifying before = [])
    /\ (List.length (clicked (host (exec clickIfFound w)))
        <= S (List.length (clicked (host w))))%nat
    /\ (click_method q = true ->
        returns clickIfFound w = true
        /\ clicked (host (exec clickIfFound w)) = (clock (host w), q) :: clicked (host w))
    /\ (click_method q = false ->
        returns clickIfFound w = false
        /\ clicked (host (exec clickIfFound w)) = clicked (host w)
        /\ lastClick (vars (exec clickIfFound w)) = lastClick (vars w)).
Proof.
  intros w q rest Hp Hgate Hq.
  apply Z.ltb_ge in Hgate.
  assert (Hc : clicked (host (exec clickIfFound w))
               = if click_method q then (clock (host w), q) :: clicked (host w)
                 else clicked (host w))
    by (now rewrite scan_clicks, Hp, Hgate, Hq).
  assert (Hr : returns clickIfFound w = click_method q)
    by (now rewrite scan_returns, Hp, Hgate, Hq).
  split; [|split; [|split]].
  - destruct (qualifying_first _ _ _ Hq) as [before [after [Hdoc [Hb _]]]]; eauto.
  - rewrite Hc; destruct (click_method q); simpl; lia.
  - intros Hm; rewrite Hm in *; auto.
  - intros Hm; rewrite Hm in *; repeat split; auto.
    apply scan_lastClick_kept, Hc.
Qed.

Lemma first_qualifying_witness :
  (returns clickIfFound (at_time 5000 sample_document running_world) = true
   /\ clicked (host (exec clickIfFound (at_time 5000 sample_document running_world)))
      = [(5000, padded_button)])
  /\ (returns clickIfFound (at_time 5000 svg_first_document running_world) = false
      /\ clicked (host (exec clickIfFound (at_time 5000 svg_first_document running_world)))
         = []
      /\ lastClick (vars (exec clickIfFound (at_time 5000 svg_first_document running_world)))
         = 0).
Proof.
  assert (Hgate : COOLDOWN_MS <= 5000 - 0) by (unfold COOLDOWN_MS; lia).
  split.
  - apply (first_qualifying_element_is_activated
             (at_time 5000 sample_document running_world) padded_button [continue_button]
             eq_refl Hgate eq_refl).
    reflexivity.
  - apply (first_qualifying_element_is_activated
             (at_time 5000 svg_first_document running_world) svg_button [continue_button]
             eq_refl Hgate eq_refl).
    reflexivity.
Defined.

(** C3 fails where the first qualifying element is not an HTML element:
    an SVG [<a>] with the two classes and the text ['Continue'] matches the
    selector, passes the visibility test ([undefined !== null]) and the text
    test, but has no [click]; the scan throws at it and activates neither it
    nor the HTML button after it. *)
Lemma scan_throws_at_svg_anchor :
  qualifying svg_first_document = [svg_button; continue_button]
  /\ paused (vars (at_time 5000 svg_first_document running_world)) = false
  /\ COOLDOWN_MS <= clock (host (at_time 5000 svg_first_document running_world))
                    - lastClick (vars (at_time 5000 svg_first_document running_world))
  /\ returns clickIfFound (at_time 5000 svg_first_document running_world) = false
  /\ clicked (host (exec clickIfFound (at_time 5000 svg_first_document running_world))) = []
  /\ ~ (forall (w : World) (q : Element) (rest : list Element),
          paused (vars w) = false ->
          COOLDOWN_MS <= clock (host w) - lastClick (vars w) ->
          qualifying (document (host w)) = q :: rest ->
          clicked (host (exec clickIfFound w)) = (clock (host w), q) :: clicked (host w)).
Proof.
  assert (Hgate : COOLDOWN_MS <= 5000 - 0) by (unfold COOLDOWN_MS; lia).
  repeat split; try exact Hgate.
  intros H.
  specialize (H (at_time 5000 svg_first_document running_world) svg_button
                [continue_button] eq_refl Hgate eq_refl).
  discriminate H.
Qed.

(** C4.  An element whose trimmed text is not, code unit for code unit,
    ['Continue'] fails the text test, does not qualify, and is not
    activated by any scan: if it is in the record of activations after a
    scan, it was there before. *)
Theorem inexact_label_is_never_matched :
  forall el : Element,
    JSString.trim (textContent el) <> JSString.lit "Continue" ->
    is_Continue el = false
    /\ qualifies el = false
    /\ forall (w : World) (t : Z),
         In (t, el) (clicked (host (exec clickIfFound w))) ->
         In (t, el) (clicked (host w)).
Proof.
  intros el Hne.
  assert (Hc : is_Continue el = false).
  { destruct (is_Continue el) eqn:H; [|reflexivity].
    apply is_Continue_true_iff in H; contradiction. }
  assert (Hq : qualifies el = false).
  { unfold qualifies; rewrite Hc; apply andb_false_r. }
  repeat split; auto.
  intros w t; rewrite scan_clicks.
  destruct (paused (vars w)); [auto|].
  destruct (_ <? _); [auto|].
  destruct (qualifying (document (host w))) as [|q rest] eqn:Hdoc; [auto|].
  destruct (click_method q); [|auto].
  intros [H|H]; [|exact H].
  injection H as _ ->.
  destruct (qualifying_first _ _ _ Hdoc) as [_ [_ [_ [_ Hq']]]]; congruence.
Qed.

Lemma inexact_label_witness :
  (is_Continue continue_anyway_button = false
   /\ qualifies continue_anyway_button = false
   /\ forall (w : World) (t : Z),
        In (t, continue_anyway_button) (clicked (host (exec clickIfFound w))) ->
        In (t, continue_anyway_button) (clicked (host w)))
  /\ (is_Continue lowercase_button = false
      /\ qualifies lowercase_button = false
      /\ forall (w : World) (t : Z),
           In (t, lowercase_button) (clicked (host (exec clickIfFound w))) ->
           In (t, lowercase_button) (clicked (host w))).
Proof.
  split.
  - apply (inexact_label_is_never_matched continue_anyway_button); discriminate.
  - apply (inexact_label_is_never_matched lowercase_button); discriminate.
Defined.

(* ================================================================== *)
(** ** The session controller *)

Lemma in_sync_enablement (w : World) :
  in_sync w <-> enablement w = expected_enablement (session_state w).
Proof.
  unfold in_sync, enablement, is_Running, is_Paused.
  destruct (session_state w), (startBtn_disabled _), (pauseBtn_disabled _),
    (stopBtn_disabled _); simpl; split;
    first [intros [? [? ?]]; congruence | intros ?; repeat split; congruence].
Qed.

Lemma session_part_session_state (w w' : World) :
  session_part w' = session_part w -> session_state w' = session_state w.
Proof.
  unfold session_part, session_state; intros H.
  injection H as -> _ -> _ _ _ _ _; reflexivity.
Qed.

Lemma exec_seq {A B} (m : JS A) (k : JS B) (w : World) :
  returns m w = true -> exec (m ;; k) w = exec k (exec m w).
Proof.
  unfold returns, exec, bind.
  destruct (m w) as [[a|e] w']; simpl; [reflexivity|discriminate].
Qed.

Lemma startAuto_running (w : World) :
  document_body (host w) = true \/ session_state w = Running ->
  session_state (exec startAuto w) = Running.
Proof.
  unfold session_state; fields w; js.
  destruct iid; simpl; [reflexivity|].
  intros [->|H]; [reflexivity|destruct psd; discriminate].
Qed.

Lemma running_triggers (w : World) :
  triggers_match w -> session_state w = Running ->
  paused (vars w) = false
  /\ exists i o,
       intervalId (vars w) = Some i /\ intervals (host w) = [i]
       /\ observer (vars w) = Some o /\ observing (host w) = [o].
Proof.
  unfold triggers_match, session_state.
  destruct (intervalId (vars w)) as [i|]; simpl.
  - intros [Hi [Hp [o [Ho Hob]]]] _; eauto 8.
  - destruct (paused (vars w)); discriminate.
Qed.

Lemma mem_singleton (id i : handle) : mem id [i] = true -> id = i.
Proof.
  unfold mem; simpl; rewrite orb_false_r; apply Pos.eqb_eq.
Qed.

Lemma mem_self (i : handle) : mem i [i] = true.
Proof. unfold mem; simpl; now rewrite Pos.eqb_refl. Qed.

(** A scan on a session that is not paused, with the cooldown over and a
    first qualifying element that can be clicked, clicks it. *)
Lemma open_scan_clicks (w : World) (now : Z) (doc : list Element)
      (q : Element) (rest : list Element) :
  paused (vars w) = false ->
  COOLDOWN_MS <= now - lastClick (vars w) ->
  qualifying doc = q :: rest ->
  click_method q = true ->
  clicked (host (exec clickIfFound (at_time now doc w))) = (now, q) :: clicked (host w).
Proof.
  intros Hp Hgate Hq Hm; rewrite scan_clicks; simpl.
  apply Z.ltb_ge in Hgate; now rewrite Hp, Hgate, Hq, Hm.
Qed.

Lemma live_triggers_click (w : World) (i o : handle) (now : Z) (doc : list Element)
      (q : Element) (rest : list Element) :
  paused (vars w) = false ->
  intervals (host w) = [i] ->
  observing (host w) = [o] ->
  COOLDOWN_MS <= now - lastClick (vars w) ->
  qualifying doc = q :: rest ->
  click_method q = true ->
  clicked (host (dispatch (TimerTask i now doc) w)) = (now, q) :: clicked (host w)
  /\ clicked (host (dispatch (MutationNotice o now doc) w)) = (now, q) :: clicked (host w).
Proof.
  intros Hp Hi Ho Hgate Hq Hm; simpl.
  rewrite Hi, Ho, !mem_self.
  split; apply (open_scan_clicks w now doc q rest); assumption.
Qed.

Lemma startAuto_twice (w : World) :
  triggers_match w ->
  document_body (host w) = true \/ session_state w = Running ->
  exec (startAuto ;; startAuto) w = exec startAuto w
  /\ returns (startAuto ;; startAuto) w = true.
Proof.
  unfold triggers_match, session_state; fields w; js.
  destruct iid as [i|]; simpl.
  - intros [-> [-> [o [-> ->]]]] _; cbn; auto.
  - intros [-> ->] [->|H]; [cbn; auto|destruct psd; discriminate].
Qed.

(** C5.  From a world whose trigger sources are those its variables name,
    and in which the subscription can be attached (or the session already
    runs), a second [startAuto()] changes nothing: the world after two calls
    is the world after one.  In it the session is Running and not paused,
    the browser holds exactly one timer, the one [intervalId] names, and one
    subscription, that of [observer]; and the session does run: the next task
    of that timer, or notice of that observer, that finds the cooldown over
    and a first qualifying element that can be clicked, clicks it, once. *)
Theorem start_twice_is_start_once :
  forall w : World,
    triggers_match w ->
    document_body (host w) = true \/ session_state w = Running ->
    exec (startAuto ;; startAuto) w = exec startAuto w
    /\ returns (startAuto ;; startAuto) w = true
    /\ session_state (exec startAuto w) = Running
    /\ paused (vars (exec startAuto w)) = false
    /\ exists i o,
         intervalId (vars (exec startAuto w)) = Some i
         /\ intervals (host (exec startAuto w)) = [i]
         /\ observer (vars (exec startAuto w)) = Some o
         /\ observing (host (exec startAuto w)) = [o]
         /\ forall (now : Z) (doc : list Element) (q : Element) (rest : list Element),
              COOLDOWN_MS <= now - lastClick (vars w) ->
              qualifying doc = q :: rest ->
              click_method q = true ->
              clicked (host (dispatch (TimerTask i now doc) (exec startAuto w)))
              = (now, q) :: clicked (host w)
              /\ clicked (host (dispatch (MutationNotice o now doc) (exec startAuto w)))
                 = (now, q) :: clicked (host w).
Proof.
  intros w Ht Hb.
  destruct (startAuto_twice w Ht Hb) as [Htwice Hret].
  pose proof (startAuto_running w Hb) as Hrun.
  pose proof (startAuto_triggers_match w Ht Hb) as Ht'.
  destruct (running_triggers _ Ht' Hrun) as [Hp [i [o [Hi [Hiv [Ho Hov]]]]]].
  pose proof (startAuto_scan_state w) as Hsc.
  unfold scan_state in Hsc; injection Hsc as Hl Hc _.
  repeat split; auto.
  exists i, o; repeat split; auto;
    rewrite <- Hc; apply (live_triggers_click _ i o now doc q rest); auto;
    rewrite Hl; assumption.
Qed.

Lemma start_twice_witness :
  exec (startAuto ;; startAuto) paused_world = exec startAuto paused_world
  /\ returns (startAuto ;; startAuto) paused_world = true
  /\ session_state (exec startAuto paused_world) = Running
  /\ paused (vars (exec startAuto paused_world)) = false
  /\ exists i o,
       intervalId (vars (exec startAuto paused_world)) = Some i
       /\ intervals (host (exec startAuto paused_world)) = [i]
       /\ observer (vars (exec startAuto paused_world)) = Some o
       /\ observing (host (exec startAuto paused_world)) = [o]
       /\ forall (now : Z) (doc : list Element) (q : Element) (rest : list Element),
            COOLDOWN_MS <= now - lastClick (vars paused_world) ->
            qualifying doc = q :: rest ->
            click_method q = true ->
            clicked (host (dispatch (TimerTask i now doc) (exec startAuto paused_world)))
            = (now, q) :: clicked (host paused_world)
            /\ clicked (host (dispatch (MutationNotice o now doc) (exec startAuto paused_world)))
               = (now, q) :: clicked (host paused_world).
Proof.
  apply (start_twice_is_start_once paused_world).
  - split; reflexivity.
  - left; reflexivity.
Defined.

Lemma stopAuto_stopped (w : World) :
  triggers_match w -> session_state (exec stopAuto w) = Stopped.
Proof.
  unfold triggers_match, session_state; fields w; js.
  destruct iid; simpl; [|reflexivity].
  now intros [_ [_ [o [-> _]]]].
Qed.

Lemma pauseAuto_idle (w : World) :
  session_state w <> Running -> exec pauseAuto w = w.
Proof.
  unfold session_state; fields w; js.
  destruct iid; simpl; [congruence|reflexivity].
Qed.

Lemma dispatch_stays_stopped (ev : Event) (w : World) :
  triggers_match w -> session_state w = Stopped -> ev <> Press Start ->
  triggers_match (dispatch ev w)
  /\ session_state (dispatch ev w) = Stopped
  /\ scan_state (dispatch ev w) = scan_state w.
Proof.
  intros Ht Hs Hev.
  assert (Hidle : session_state w <> Running) by congruence.
  destruct ev as [id now doc|o now doc|b| |present].
  - destruct (idle_dispatch w id now doc Ht Hidle) as [-> _]; auto.
  - destruct (idle_dispatch w o now doc Ht Hidle) as [_ ->]; auto.
  - simpl; destruct (_ && _); [|auto].
    destruct b; simpl.
    + congruence.
    + rewrite pauseAuto_idle; auto.
    + repeat split; [apply stopAuto_triggers_match, Ht|apply stopAuto_stopped, Ht
                    |apply stopAuto_scan_state].
    + auto.
    + auto.
  - simpl; destruct (stopAutoContinue _); [|auto].
    repeat split; [apply stopAuto_triggers_match, Ht|apply stopAuto_stopped, Ht
                  |apply stopAuto_scan_state].
  - auto.
Qed.

(** Once Stopped, nothing but a press of Start brings a scan back. *)
Lemma run_stays_stopped (evs : list Event) (w : World) :
  triggers_match w -> session_state w = Stopped ->
  Forall (fun ev => ev <> Press Start) evs ->
  session_state (run evs w) = Stopped /\ scan_state (run evs w) = scan_state w.
Proof.
  revert w; induction evs as [|ev evs IH]; intros w Ht Hs Hevs; simpl; [auto|].
  inversion Hevs as [|? ? Hev Hrest]; subst.
  destruct (dispatch_stays_stopped ev w Ht Hs Hev) as [Ht' [Hs' Hsc]].
  destruct (IH _ Ht' Hs' Hrest) as [Hs'' Hsc'']; split; congruence.
Qed.

Lemma stopAuto_effect (w : World) :
  triggers_match w ->
  intervals (host (exec stopAuto w)) = []
  /\ observing (host (exec stopAuto w)) = []
  /\ intervalId (vars (exec stopAuto w)) = None
  /\ paused (vars (exec stopAuto w)) = false
  /\ lastClick (vars (exec stopAuto w)) = lastClick (vars w)
  /\ observer (vars (exec stopAuto w)) = observer (vars w).
Proof.
  unfold triggers_match; fields w; js.
  destruct iid as [i|]; simpl.
  - intros [-> [-> [o [-> ->]]]]; unfold without; cbn.
    rewrite !Pos.eqb_refl; cbn; auto 7.
  - intros [-> ->]; auto 7.
Qed.

Lemma stopAuto_when_stopped (w : World) :
  session_state w = Stopped -> in_sync w ->
  exec stopAuto w = logged "[auto] stopped" w.
Proof.
  unfold session_state, in_sync, is_Running, is_Paused, session_state, logged.
  fields w; js.
  destruct iid, psd; simpl; try discriminate.
  intros _ [-> [-> ->]]; reflexivity.
Qed.

(** C6, as the code has it.  [stopAuto()] returns, leaves the session
    Stopped with no timer and no subscription, resets [intervalId] and
    [paused], and sets the buttons accordingly; it keeps [lastClick] and the
    [observer] object.  Called when already Stopped it only prints its
    console line.  After it, no event other than a press of Start makes a
    scan happen. *)
Theorem stop_detaches_and_keeps_timestamp :
  forall w : World,
    triggers_match w ->
    returns stopAuto w = true
    /\ session_state (exec stopAuto w) = Stopped
    /\ intervals (host (exec stopAuto w)) = []
    /\ observing (host (exec stopAuto w)) = []
    /\ intervalId (vars (exec stopAuto w)) = None
    /\ paused (vars (exec stopAuto w)) = false
    /\ lastClick (vars (exec stopAuto w)) = lastClick (vars w)
    /\ observer (vars (exec stopAuto w)) = observer (vars w)
    /\ enablement (exec stopAuto w) = expected_enablement Stopped
    /\ (session_state w = Stopped -> in_sync w ->
        exec stopAuto w = logged "[auto] stopped" w)
    /\ (forall evs : list Event,
          Forall (fun ev => ev <> Press Start) evs ->
          session_state (run evs (exec stopAuto w)) = Stopped
          /\ scan_state (run evs (exec stopAuto w)) = scan_state w).
Proof.
  intros w Ht.
  pose proof (stopAuto_returns w Ht) as Hret.
  pose proof (stopAuto_stopped w Ht) as Hst.
  destruct (stopAuto_effect w Ht) as [Hi [Ho [Hid [Hp [Hl Hob]]]]].
  repeat split; auto.
  - rewrite <- Hst; apply in_sync_enablement, stopAuto_in_sync, Hret.
  - apply stopAuto_when_stopped.
  - apply (run_stays_stopped evs (exec stopAuto w));
      [apply stopAuto_triggers_match, Ht|exact Hst|assumption].
  - destruct (run_stays_stopped evs (exec stopAuto w)
                (stopAuto_triggers_match w Ht) Hst H) as [_ ->].
    apply stopAuto_scan_state.
Qed.

Lemma stop_detaches_witness :
  session_state (exec stopAuto paused_world) = Stopped
  /\ intervals (host (exec stopAuto paused_world)) = []
  /\ lastClick (vars (exec stopAuto clicked_then_stopped_world)) = 5000.
Proof.
  assert (Hp : triggers_match paused_world) by (split; reflexivity).
  assert (Hc : triggers_match clicked_then_stopped_world) by (split; reflexivity).
  destruct (stop_detaches_and_keeps_timestamp paused_world Hp)
    as [_ [Hs [Hi _]]].
  destruct (stop_detaches_and_keeps_timestamp clicked_then_stopped_world Hc)
    as [_ [_ [_ [_ [_ [_ [Hl _]]]]]]].
  split; [exact Hs|split; [exact Hi|rewrite Hl; reflexivity]].
Defined.

(** C6 fails where it says that every variable is back at its initial
    value: after a click at 5000 and a press of Stop, [lastClick] is 5000,
    not 0, and [observer] still holds the observer object. *)
Lemma stop_does_not_reset_lastClick :
  session_state clicked_then_stopped_world = Stopped
  /\ lastClick (vars clicked_then_stopped_world) = 5000
  /\ lastClick initial_vars = 0
  /\ observer (vars clicked_then_stopped_world) = Some 2%positive
  /\ ~ (forall w : World, reachable w -> vars (exec stopAuto w) = initial_vars).
Proof.
  repeat split.
  intros H.
  specialize (H (run [TimerTask 1%positive 5000 [continue_button]] (loaded true))).
  discriminate H.
  exists true, [TimerTask 1%positive 5000 [continue_button]]; reflexivity.
Qed.

(* ================================================================== *)
(** ** The buttons *)

(** C7.  At every point of every run of the loaded script the three
    buttons are enabled exactly as the session state says; and from such a
    point each of [startAuto], [pauseAuto], [stopAuto], when it returns,
    leaves them enabled exactly as the resulting state says. *)
Theorem buttons_project_session_state :
  forall (evs : list Event) (f : JS unit),
    In f [startAuto; pauseAuto; stopAuto] ->
    enablement (run evs (loaded true))
    = expected_enablement (session_state (run evs (loaded true)))
    /\ (returns f (run evs (loaded true)) = true ->
        enablement (exec f (run evs (loaded true)))
        = expected_enablement (session_state (exec f (run evs (loaded true))))).
Proof.
  intros evs f Hf.
  pose proof (run_in_sync evs (loaded true) (loaded_consistent true) loaded_in_sync) as Hs.
  split; [apply in_sync_enablement, Hs|].
  intros Hret; apply in_sync_enablement.
  destruct Hf as [<-|[<-|[<-|[]]]].
  - apply startAuto_in_sync; assumption.
  - apply pauseAuto_in_sync; assumption.
  - apply stopAuto_in_sync; assumption.
Qed.

Lemma buttons_project_witness :
  enablement (run [Press Pause] (loaded true)) = (true, false, true)
  /\ enablement (exec startAuto (run [Press Pause] (loaded true))) = (false, true, true)
  /\ enablement (exec stopAuto (run [Press Pause] (loaded true))) = (true, false, false).
Proof.
  split; [|split].
  - apply (buttons_project_session_state [Press Pause] startAuto); left; reflexivity.
  - apply (buttons_project_session_state [Press Pause] startAuto);
      [left; reflexivity|reflexivity].
  - apply (buttons_project_session_state [Press Pause] stopAuto);
      [right; right; left; reflexivity|reflexivity].
Defined.

(* ================================================================== *)
(** ** A subscription that cannot be attached *)

(** C8, as the code has it.  When [document.body] is [null] and the
    session is not running, [startAuto()] throws the TypeError of
    [observe] after it has cleared [paused], installed the timer and
    stored its id: the session is Running with that timer active and no
    new subscription, and the buttons are left as they were. *)
Theorem failed_subscription_leaves_timer_active :
  forall w : World,
    session_state w <> Running ->
    document_body (host w) = false ->
    (exists msg, fst (startAuto w) = Throws (TypeError msg))
    /\ session_state (exec startAuto w) = Running
    /\ intervalId (vars (exec startAuto w)) = Some (next_handle (host w))
    /\ intervals (host (exec startAuto w)) = next_handle (host w) :: intervals (host w)
    /\ observing (host (exec startAuto w)) = observing (host w)
    /\ paused (vars (exec startAuto w)) = false
    /\ panel (exec startAuto w) = panel w
    /\ console (host (exec startAuto w)) = console (host w).
Proof.
  unfold session_state; intros w; fields w; js.
  destruct iid; simpl; [congruence|].
  intros _ ->; cbn; eauto 10.
Qed.

Lemma failed_subscription_witness :
  session_state (exec startAuto bodyless_world) = Running
  /\ intervals (host (exec startAuto bodyless_world)) = [3%positive]
  /\ observing (host (exec startAuto bodyless_world)) = [].
Proof.
  destruct (failed_subscription_leaves_timer_active bodyless_world)
    as [_ [Hs [_ [Hi [Ho _]]]]].
  - discriminate.
  - reflexivity.
  - split; [exact Hs|split; [exact Hi|exact Ho]].
Defined.

(** C8 fails: started from Stopped with no [document.body], the call
    throws, and the session is then Running with a live timer instead of
    unchanged and Stopped. *)
Lemma failed_start_is_not_atomic :
  session_state bodyless_world = Stopped
  /\ document_body (host bodyless_world) = false
  /\ returns startAuto bodyless_world = false
  /\ session_state (exec startAuto bodyless_world) = Running
  /\ intervals (host bodyless_world) = []
  /\ intervals (host (exec startAuto bodyless_world)) = [3%positive]
  /\ ~ (forall w : World,
          session_state w = Stopped -> document_body (host w) = false ->
          session_state (exec startAuto w) = Stopped
          /\ intervals (host (exec startAuto w)) = intervals (host w)).
Proof.
  repeat split.
  intros H.
  destruct (H bodyless_world eq_refl eq_refl) as [H' _]; discriminate H'.
Qed.

(* ================================================================== *)
(** ** Loading the script *)

(** C9, as the code has it.  The variables start in the Stopped state with
    no trigger source, so nothing can run a scan; but the script calls
    [startAuto()] itself as it loads: once loaded in a document with a body
    the session is Running, with one timer and one subscription, before any
    operator command.  Without a body the script ends at [appendChild] and
    the session stays Stopped. *)
Theorem script_starts_the_session_itself :
  forall body : bool,
    session_state (pristine body) = Stopped
    /\ intervals (host (pristine body)) = []
    /\ observing (host (pristine body)) = []
    /\ (forall (o : handle) (now : Z) (doc : list Element),
          dispatch (TimerTask o now doc) (pristine body) = at_time now doc (pristine body)
          /\ dispatch (MutationNotice o now doc) (pristine body)
             = at_time now doc (pristine body))
    /\ session_state (loaded body) = (if body then Running else Stopped)
    /\ intervals (host (loaded body)) = (if body then [1%positive] else [])
    /\ observing (host (loaded body)) = (if body then [2%positive] else [])
    /\ enablement (loaded body) = (if body then (false, true, true) else (true, true, true))
    /\ stopAutoContinue (host (loaded body)) = body.
Proof. intros [|]; repeat split. Qed.

(** C9 fails: with no operator command at all the loaded session is
    Running, and its first timer task clicks a qualifying element. *)
Lemma running_before_any_operator_start :
  session_state (loaded true) = Running
  /\ clicked (host (run [TimerTask 1%positive 5000 [continue_button]] (loaded true)))
     = [(5000, continue_button)]
  /\ ~ (forall evs : list Event,
          Forall (fun ev => ev <> Press Start) evs ->
          session_state (run evs (loaded true)) = Stopped
          /\ clicked (host (run evs (loaded true))) = []).
Proof.
  repeat split.
  intros H.
  destruct (H [] (Forall_nil _)) as [H' _]; discriminate H'.
Qed.

(* ================================================================== *)
(** ** Closing the panel *)

Lemma close_detaches (w : World) : dispatch (Press Close) w = detached w.
Proof. fields w; destruct att; reflexivity. Qed.

Lemma clickIfFound_detached (w : World) :
  exec clickIfFound (detached w) = detached (exec clickIfFound w).
Proof.
  rewrite !clickIfFound_exec; simpl.
  destruct (paused (vars w)); [reflexivity|].
  destruct (_ <? _); [reflexivity|].
  destruct (qualifying _) as [|q rest]; [reflexivity|].
  rewrite !activated_eq; destruct (click_method q); reflexivity.
Qed.

Lemma dispatch_scan_detached (w : World) (o : handle) (now : Z) (doc : list Element) :
  dispatch (TimerTask o now doc) (detached w) = detached (dispatch (TimerTask o now doc) w)
  /\ dispatch (MutationNotice o now doc) (detached w)
     = detached (dispatch (MutationNotice o now doc) w).
Proof.
  simpl; split.
  - destruct (mem o (intervals (host w))); [|reflexivity].
    apply (clickIfFound_detached (at_time now doc w)).
  - destruct (mem o (observing (host w))); [|reflexivity].
    apply (clickIfFound_detached (at_time now doc w)).
Qed.

(** With the panel out of the document, only the console command writes
    the session variables or the trigger sources. *)
Lemma dispatch_panel_gone (ev : Event) (w : World) :
  panel_attached (panel w) = false -> ev <> Console_stopAutoContinue ->
  panel_attached (panel (dispatch ev w)) = false
  /\ session_state (dispatch ev w) = session_state w
  /\ intervals (host (dispatch ev w)) = intervals (host w)
  /\ observing (host (dispatch ev w)) = observing (host w)
  /\ stopAutoContinue (host (dispatch ev w)) = stopAutoContinue (host w)
  /\ (triggers_match w -> triggers_match (dispatch ev w)).
Proof.
  intros Hatt Hev.
  assert (Hpart : forall w', session_part w' = session_part w ->
            panel_attached (panel w') = false
            /\ session_state w' = session_state w
            /\ intervals (host w') = intervals (host w)
            /\ observing (host w') = observing (host w)
            /\ stopAutoContinue (host w') = stopAutoContinue (host w)
            /\ (triggers_match w -> triggers_match w')).
  { intros w' H.
    pose proof (session_part_session_state _ _ H) as Hs.
    pose proof (session_part_triggers_match _ _ H) as Ht.
    unfold session_part in H; injection H as _ _ _ Hp _ Hi Ho He.
    rewrite Hp; auto 7. }
  destruct ev as [id now doc|o now doc|b| |present]; simpl.
  - destruct (mem id _); apply Hpart; [|reflexivity].
    rewrite clickIfFound_session_part; reflexivity.
  - destruct (mem o _); apply Hpart; [|reflexivity].
    rewrite clickIfFound_session_part; reflexivity.
  - rewrite Hatt; simpl; auto 7.
  - congruence.
  - auto 7.
Qed.

Lemma run_panel_gone (evs : list Event) (w : World) :
  panel_attached (panel w) = false ->
  Forall (fun ev => ev <> Console_stopAutoContinue) evs ->
  session_state (run evs w) = session_state w
  /\ intervals (host (run evs w)) = intervals (host w)
  /\ observing (host (run evs w)) = observing (host w)
  /\ stopAutoContinue (host (run evs w)) = stopAutoContinue (host w)
  /\ (triggers_match w -> triggers_match (run evs w)).
Proof.
  revert w; induction evs as [|ev evs IH]; intros w Hatt Hevs; simpl; [auto 6|].
  inversion Hevs as [|? ? Hev Hrest]; subst.
  destruct (dispatch_panel_gone ev w Hatt Hev) as [Hatt' [Hs [Hi [Ho [He Ht]]]]].
  destruct (IH _ Hatt' Hrest) as [Hs' [Hi' [Ho' [He' Ht']]]].
  repeat split; try congruence; auto.
Qed.

(** C10.  A press of the close button takes the panel out of the document
    and writes nothing else.  Timer tasks and mutation notices then do what
    they would have done with the panel in place.  If the session was
    Running, then after any events other than the console command it is
    still Running with the same timer and the same subscription, and
    [window.stopAutoContinue()] then stops it. *)
Theorem close_keeps_the_loop_running :
  forall (w : World) (evs : list Event),
    triggers_match w ->
    session_state w = Running ->
    stopAutoContinue (host w) = true ->
    Forall (fun ev => ev <> Console_stopAutoContinue) evs ->
    (vars (dispatch (Press Close) w) = vars w
     /\ host (dispatch (Press Close) w) = host w
     /\ panel_attached (panel (dispatch (Press Close) w)) = false)
    /\ (forall (o : handle) (now : Z) (doc : list Element),
          dispatch (TimerTask o now doc) (dispatch (Press Close) w)
          = detached (dispatch (TimerTask o now doc) w)
          /\ dispatch (MutationNotice o now doc) (dispatch (Press Close) w)
             = detached (dispatch (MutationNotice o now doc) w))
    /\ (session_state (run evs (dispatch (Press Close) w)) = Running
        /\ intervals (host (run evs (dispatch (Press Close) w))) = intervals (host w)
        /\ observing (host (run evs (dispatch (Press Close) w))) = observing (host w))
    /\ (session_state
          (dispatch Console_stopAutoContinue (run evs (dispatch (Press Close) w))) = Stopped
        /\ intervals
             (host (dispatch Console_stopAutoContinue (run evs (dispatch (Press Close) w)))) = []
        /\ observing
             (host (dispatch Console_stopAutoContinue (run evs (dispatch (Press Close) w)))) = []).
Proof.
  intros w evs Ht Hs He Hevs.
  rewrite close_detaches.
  destruct (run_panel_gone evs (detached w) eq_refl Hevs) as [Hs' [Hi [Ho [He' Ht']]]].
  specialize (Ht' Ht).
  split; [repeat split|split; [intros; apply dispatch_scan_detached|split]].
  - rewrite Hs', Hi, Ho; repeat split; exact Hs.
  - simpl; rewrite He'; simpl; rewrite He.
    destruct (stopAuto_effect _ Ht') as [Hi' [Ho' _]].
    split; [apply stopAuto_stopped, Ht'|split; assumption].
Qed.

Lemma close_keeps_running_witness :
  session_state
    (run [TimerTask 1%positive 5000 sample_document; Press Stop; Press Pause]
         (dispatch (Press Close) running_world)) = Running
  /\ clicked
       (host (run [TimerTask 1%positive 5000 sample_document; Press Stop; Press Pause]
                  (dispatch (Press Close) running_world)))
     = [(5000, padded_button)]
  /\ session_state
       (dispatch Console_stopAutoContinue
          (run [TimerTask 1%positive 5000 sample_document; Press Stop; Press Pause]
               (dispatch (Press Close) running_world))) = Stopped.
Proof.
  assert (Ht : triggers_match running_world) by (cbv; eauto).
  assert (Hevs : Forall (fun ev => ev <> Console_stopAutoContinue)
                   [TimerTask 1%positive 5000 sample_document; Press Stop; Press Pause])
    by (repeat constructor; discriminate).
  destruct (close_keeps_the_loop_running running_world _ Ht eq_refl eq_refl Hevs)
    as [_ [_ [[Hs _] [Hc _]]]].
  split; [exact Hs|split; [reflexivity|exact Hc]].
Defined.

(* ================================================================== *)
(** ** Pausing and resuming *)

Lemma pauseAuto_effect (w : World) :
  triggers_match w -> session_state w = Running ->
  session_state (exec pauseAuto w) = Paused
  /\ intervals (host (exec pauseAuto w)) = []
  /\ observing (host (exec pauseAuto w)) = []
  /\ lastClick (vars (exec pauseAuto w)) = lastClick (vars w)
  /\ observer (vars (exec pauseAuto w)) = observer (vars w)
  /\ console (host (exec pauseAuto w)) = "[auto] paused"%string :: console (host w).
Proof.
  unfold triggers_match, session_state; fields w; js.
  destruct iid as [i|]; simpl; [|destruct psd; discriminate].
  intros [-> [-> [o [-> ->]]]] _; unfold without; cbn.
  rewrite !Pos.eqb_refl; cbn; auto 7.
Qed.

Lemma dispatch_stays_idle (ev : Event) (w : World) :
  triggers_match w -> session_state w <> Running -> ev <> Press Start ->
  triggers_match (dispatch ev w)
  /\ session_state (dispatch ev w) <> Running
  /\ scan_state (dispatch ev w) = scan_state w.
Proof.
  intros Ht Hidle Hev.
  destruct ev as [id now doc|o now doc|b| |present].
  - destruct (idle_dispatch w id now doc Ht Hidle) as [-> _]; auto.
  - destruct (idle_dispatch w o now doc Ht Hidle) as [_ ->]; auto.
  - simpl; destruct (_ && _); [|auto].
    destruct b; simpl.
    + congruence.
    + rewrite pauseAuto_idle; auto.
    + repeat split; [apply stopAuto_triggers_match, Ht
                    |rewrite stopAuto_stopped; [discriminate|exact Ht]
                    |apply stopAuto_scan_state].
    + auto.
    + auto.
  - simpl; destruct (stopAutoContinue _); [|auto].
    repeat split; [apply stopAuto_triggers_match, Ht
                  |rewrite stopAuto_stopped; [discriminate|exact Ht]
                  |apply stopAuto_scan_state].
  - auto.
Qed.

Lemma run_stays_idle (evs : list Event) (w : World) :
  triggers_match w -> session_state w <> Running ->
  Forall (fun ev => ev <> Press Start) evs ->
  session_state (run evs w) <> Running /\ scan_state (run evs w) = scan_state w.
Proof.
  revert w; induction evs as [|ev evs IH]; intros w Ht Hs Hevs; simpl; [auto|].
  inversion Hevs as [|? ? Hev Hrest]; subst.
  destruct (dispatch_stays_idle ev w Ht Hs Hev) as [Ht' [Hs' Hsc]].
  destruct (IH _ Ht' Hs' Hrest) as [Hs'' Hsc'']; split; congruence.
Qed.

(** X1.  [pauseAuto()] on a running session returns, leaves the session
    Paused with no timer and no subscription, keeps [lastClick] and the
    [observer] object, enables Start and Stop only, and prints its line;
    afterwards no event other than a press of Start brings a scan back.  On
    a session that is not running it does nothing at all: it does not move
    Stopped to Paused, and writes neither buttons nor console. *)
Theorem pause_detaches_or_does_nothing :
  forall w : World,
    triggers_match w ->
    (session_state w = Running ->
     returns pauseAuto w = true
     /\ session_state (exec pauseAuto w) = Paused
     /\ intervals (host (exec pauseAuto w)) = []
     /\ observing (host (exec pauseAuto w)) = []
     /\ lastClick (vars (exec pauseAuto w)) = lastClick (vars w)
     /\ observer (vars (exec pauseAuto w)) = observer (vars w)
     /\ enablement (exec pauseAuto w) = (true, false, true)
     /\ console (host (exec pauseAuto w)) = "[auto] paused"%string :: console (host w)
     /\ forall evs : list Event,
          Forall (fun ev => ev <> Press Start) evs ->
          session_state (run evs (exec pauseAuto w)) <> Running
          /\ scan_state (run evs (exec pauseAuto w)) = scan_state w)
    /\ (session_state w <> Running -> pauseAuto w = (Returns tt, w)).
Proof.
  intros w Ht; split.
  - intros Hs.
    pose proof (pauseAuto_returns w Ht) as Hret.
    destruct (pauseAuto_effect w Ht Hs) as [Hp [Hi [Ho [Hl [Hob Hc]]]]].
    assert (Hen : enablement (exec pauseAuto w) = (true, false, true)).
    { change (true, false, true) with (expected_enablement Paused).
      rewrite <- Hp; apply in_sync_enablement.
      revert Ht Hs; unfold triggers_match, in_sync, is_Running, is_Paused, session_state.
      clear; fields w; js.
      destruct iid; simpl; [|destruct psd; discriminate].
      intros [_ [_ [o [-> _]]]] _; cbn; auto. }
    repeat split; auto.
    + apply (run_stays_idle evs (exec pauseAuto w));
        [apply pauseAuto_triggers_match, Ht|rewrite Hp; discriminate|assumption].
    + destruct (run_stays_idle evs (exec pauseAuto w)) as [_ ->];
        [apply pauseAuto_triggers_match, Ht|rewrite Hp; discriminate|assumption|].
      apply pauseAuto_scan_state.
  - intros Hs; revert Hs; unfold session_state; clear; fields w; js.
    destruct iid; simpl; [congruence|reflexivity].
Qed.

Lemma pause_witness :
  session_state (exec pauseAuto running_world) = Paused
  /\ intervals (host (exec pauseAuto running_world)) = []
  /\ pauseAuto stopped_world = (Returns tt, stopped_world).
Proof.
  assert (Hr : triggers_match running_world) by (cbv; eauto).
  assert (Hs : triggers_match stopped_world) by (split; reflexivity).
  destruct (pause_detaches_or_does_nothing running_world Hr) as [H _].
  destruct (H eq_refl) as [_ [Hp [Hi _]]].
  destruct (pause_detaches_or_does_nothing stopped_world Hs) as [_ H'].
  split; [exact Hp|split; [exact Hi|apply H'; discriminate]].
Defined.

(** X2.  Pausing or stopping and then starting again gives a session
    that is Running and not paused, with one timer and one subscription, and
    does not touch the scan's state: [lastClick] survives.  So a scan made
    after the restart but less than [COOLDOWN_MS] after the last activation
    still does nothing, and the first task of the new timer or notice of the
    new observer that comes [COOLDOWN_MS] or more after it clicks again. *)
Theorem restart_keeps_cooldown :
  forall (w : World) (f : JS unit),
    In f [pauseAuto; stopAuto] ->
    triggers_match w ->
    document_body (host w) = true ->
    session_state (exec (f ;; startAuto) w) = Running
    /\ paused (vars (exec (f ;; startAuto) w)) = false
    /\ scan_state (exec (f ;; startAuto) w) = scan_state w
    /\ (forall (now : Z) (doc : list Element),
          now - lastClick (vars w) < COOLDOWN_MS ->
          clickIfFound (at_time now doc (exec (f ;; startAuto) w))
          = (Returns tt, at_time now doc (exec (f ;; startAuto) w)))
    /\ exists i o,
         intervalId (vars (exec (f ;; startAuto) w)) = Some i
         /\ intervals (host (exec (f ;; startAuto) w)) = [i]
         /\ observer (vars (exec (f ;; startAuto) w)) = Some o
         /\ observing (host (exec (f ;; startAuto) w)) = [o]
         /\ forall (now : Z) (doc : list Element) (q : Element) (rest : list Element),
              COOLDOWN_MS <= now - lastClick (vars w) ->
              qualifying doc = q :: rest ->
              click_method q = true ->
              clicked (host (dispatch (TimerTask i now doc) (exec (f ;; startAuto) w)))
              = (now, q) :: clicked (host w)
              /\ clicked (host (dispatch (MutationNotice o now doc)
                                         (exec (f ;; startAuto) w)))
                 = (now, q) :: clicked (host w).
Proof.
  intros w f Hf Ht Hb.
  assert (H : returns f w = true /\ triggers_match (exec f w)
              /\ scan_state (exec f w) = scan_state w
              /\ surroundings (exec f w) = surroundings w).
  { destruct Hf as [<-|[<-|[]]].
    - repeat split; [apply pauseAuto_returns, Ht|apply pauseAuto_triggers_match, Ht
                    |apply pauseAuto_scan_state|apply pauseAuto_surroundings].
    - repeat split; [apply stopAuto_returns, Ht|apply stopAuto_triggers_match, Ht
                    |apply stopAuto_scan_state|apply stopAuto_surroundings]. }
  destruct H as [Hret [Ht' [Hsc Hsur]]].
  rewrite (exec_seq f startAuto w Hret).
  assert (Hb' : document_body (host (exec f w)) = true).
  { unfold surroundings in Hsur; injection Hsur as _ -> _; exact Hb. }
  pose proof (startAuto_running _ (or_introl Hb')) as Hrun.
  pose proof (startAuto_triggers_match _ Ht' (or_introl Hb')) as Ht''.
  destruct (running_triggers _ Ht'' Hrun) as [Hp [i [o [Hi [Hiv [Ho Hov]]]]]].
  assert (Hsc' : scan_state (exec startAuto (exec f w)) = scan_state w).
  { rewrite startAuto_scan_state; exact Hsc. }
  pose proof Hsc' as Hsc''.
  unfold scan_state in Hsc''; injection Hsc'' as Hl Hc _.
  split; [exact Hrun|split; [exact Hp|split; [exact Hsc'|split]]].
  - intros now doc Hgate.
    rewrite clickIfFound_eq; simpl; rewrite Hp, Hl.
    apply Z.ltb_lt in Hgate; now rewrite Hgate.
  - exists i, o; repeat split; auto;
      rewrite <- Hc; apply (live_triggers_click _ i o now doc q rest); auto;
      rewrite Hl; assumption.
Qed.

Lemma restart_witness :
  session_state
    (exec (pauseAuto ;; startAuto)
          (run [TimerTask 1%positive 5000 [continue_button]] (loaded true))) = Running
  /\ paused
       (vars (exec (pauseAuto ;; startAuto)
                   (run [TimerTask 1%positive 5000 [continue_button]] (loaded true)))) = false
  /\ lastClick
       (vars (exec (pauseAuto ;; startAuto)
                   (run [TimerTask 1%positive 5000 [continue_button]] (loaded true)))) = 5000
  /\ clickIfFound
       (at_time 7499 sample_document
          (exec (pauseAuto ;; startAuto)
                (run [TimerTask 1%positive 5000 [continue_button]] (loaded true))))
     = (Returns tt,
        at_time 7499 sample_document
          (exec (pauseAuto ;; startAuto)
                (run [TimerTask 1%positive 5000 [continue_button]] (loaded true)))).
Proof.
  assert (Ht : triggers_match (run [TimerTask 1%positive 5000 [continue_button]] (loaded true)))
    by (cbv; eauto).
  destruct (restart_keeps_cooldown
              (run [TimerTask 1%positive 5000 [continue_button]] (loaded true)) pauseAuto
              (or_introl eq_refl) Ht eq_refl) as [Hs [Hp [Hsc [Hg _]]]].
  split; [exact Hs|split; [exact Hp|split]].
  - apply (f_equal (fun x => fst (fst x))) in Hsc; exact Hsc.
  - apply Hg; unfold COOLDOWN_MS; simpl; lia.
Defined.

(* ================================================================== *)
(** ** What a scan can activate *)

Lemma qualifies_true (el : Element) :
  qualifies el = true ->
  matches_selector el = true /\ isVisible el = true
  /\ JSString.trim (textContent el) = JSString.lit "Continue".
Proof.
  unfold qualifies; intros H.
  apply andb_true_iff in H as [H Hc]; apply andb_true_iff in H as [Hm Hv].
  apply is_Continue_true_iff in Hc; auto.
Qed.

Lemma clickIfFound_clicked_qualify (w : World) :
  Forall (fun a => qualifies (snd a) = true) (clicked (host w)) ->
  Forall (fun a => qualifies (snd a) = true) (clicked (host (exec clickIfFound w))).
Proof.
  rewrite scan_clicks; intros H.
  destruct (paused (vars w)); [exact H|].
  destruct (_ <? _); [exact H|].
  destruct (qualifying (document (host w))) as [|q rest] eqn:Hq; [exact H|].
  destruct (click_method q); [|exact H].
  constructor; [|exact H].
  destruct (qualifying_first _ _ _ Hq) as [_ [_ [_ [_ Hq']]]]; exact Hq'.
Qed.

Lemma scan_state_clicked (w w' : World) :
  scan_state w' = scan_state w -> clicked (host w') = clicked (host w).
Proof. unfold scan_state; intros H; injection H as _ -> _; reflexivity. Qed.

Lemma dispatch_clicked_qualify (ev : Event) (w : World) :
  Forall (fun a => qualifies (snd a) = true) (clicked (host w)) ->
  Forall (fun a => qualifies (snd a) = true) (clicked (host (dispatch ev w))).
Proof.
  intros H; destruct ev as [id now doc|o now doc|b| |present]; simpl.
  - destruct (mem id _); [|exact H].
    apply (clickIfFound_clicked_qualify (at_time now doc w)), H.
  - destruct (mem o _); [|exact H].
    apply (clickIfFound_clicked_qualify (at_time now doc w)), H.
  - destruct (_ && _); [|exact H].
    rewrite (scan_state_clicked _ _ (listener_scan_state b w)); exact H.
  - destruct (stopAutoContinue _); [|exact H].
    rewrite (scan_state_clicked _ _ (stopAuto_scan_state w)); exact H.
  - exact H.
Qed.

Lemma run_clicked_qualify (evs : list Event) (w : World) :
  Forall (fun a => qualifies (snd a) = true) (clicked (host w)) ->
  Forall (fun a => qualifies (snd a) = true) (clicked (host (run evs w))).
Proof.
  revert w; induction evs as [|ev evs IH]; intros w H; simpl; [exact H|].
  apply IH, dispatch_clicked_qualify, H.
Qed.

(** X3.  Every activation made in any run of the script was of an element
    that matched the selector, had a non-null [offsetParent], and whose
    trimmed text was ['Continue']: a hidden element, or one lacking a class
    of the selector, is never clicked. *)
Theorem activations_are_qualifying_elements :
  forall (body : bool) (evs : list Event) (t : Z) (el : Element),
    In (t, el) (clicked (host (run evs (loaded body)))) ->
    matches_selector el = true
    /\ isVisible el = true
    /\ JSString.trim (textContent el) = JSString.lit "Continue".
Proof.
  intros body evs t el Hin.
  assert (H : Forall (fun a => qualifies (snd a) = true)
                (clicked (host (run evs (loaded body))))).
  { apply run_clicked_qualify; destruct body; constructor. }
  rewrite Forall_forall in H.
  apply (qualifies_true el), (H (t, el)), Hin.
Qed.

Lemma activations_qualifying_witness :
  matches_selector padded_button = true
  /\ isVisible padded_button = true
  /\ JSString.trim (textContent padded_button) = JSString.lit "Continue".
Proof.
  apply (activations_are_qualifying_elements true
           [TimerTask 1%positive 5000 sample_document] 5000 padded_button).
  left; reflexivity.
Defined.

Lemma cons_neq_self {A} (x : A) (l : list A) : x :: l <> l.
Proof.
  intros H; apply (f_equal (@List.length A)) in H; simpl in H; lia.
Qed.

(** X4.  What a scan does, case by case.  It activates an element
    exactly when the session is not paused, at least [COOLDOWN_MS] has
    passed on the clock since [lastClick] (exactly [COOLDOWN_MS] is enough;
    a clock that went backwards is not), and the first qualifying element
    of the document has a [click] method.  It queries the document exactly
    when both gates are passed.  It throws exactly when both gates are
    passed and the first qualifying element has no [click] method.  A scan
    stopped at a gate leaves the world as it was; one that passed the gates
    and activated nothing leaves it as it was but for the query. *)
Theorem scan_activates_exactly_when :
  forall w : World,
    ((exists q, clicked (host (exec clickIfFound w)) = (clock (host w), q) :: clicked (host w))
     <-> (paused (vars w) = false
          /\ COOLDOWN_MS <= clock (host w) - lastClick (vars w)
          /\ exists q rest,
               qualifying (document (host w)) = q :: rest /\ click_method q = true))
    /\ (queries (host (exec clickIfFound w)) <> queries (host w)
        <-> (paused (vars w) = false
             /\ COOLDOWN_MS <= clock (host w) - lastClick (vars w)))
    /\ (returns clickIfFound w = false
        <-> (paused (vars w) = false
             /\ COOLDOWN_MS <= clock (host w) - lastClick (vars w)
             /\ exists q rest,
                  qualifying (document (host w)) = q :: rest /\ click_method q = false))
    /\ (paused (vars w) = true \/ clock (host w) - lastClick (vars w) < COOLDOWN_MS ->
        clickIfFound w = (Returns tt, w))
    /\ (paused (vars w) = false ->
        COOLDOWN_MS <= clock (host w) - lastClick (vars w) ->
        clicked (host (exec clickIfFound w)) = clicked (host w) ->
        exec clickIfFound w = queried w).
Proof.
  intros w.
  assert (Hself : forall q, ~ clicked (host w) = (clock (host w), q) :: clicked (host w))
    by (intros q Hq; symmetry in Hq; now apply cons_neq_self in Hq).
  split; [|split; [|split; [|split]]].
  - rewrite scan_clicks; split.
    + intros [q' Hq'].
      destruct (paused (vars w)); [now apply Hself in Hq'|].
      destruct (_ <? _) eqn:Hgate; [now apply Hself in Hq'|].
      apply Z.ltb_ge in Hgate.
      destruct (qualifying _) as [|q rest]; [now apply Hself in Hq'|].
      destruct (click_method q) eqn:Hm; [eauto 7|now apply Hself in Hq'].
    + intros [-> [Hgate [q [rest [-> ->]]]]].
      apply Z.ltb_ge in Hgate; rewrite Hgate; eauto.
  - rewrite clickIfFound_exec; split.
    + intros Hq.
      destruct (paused (vars w)); [now contradiction Hq|].
      destruct (_ <? _) eqn:Hgate; [now contradiction Hq|].
      apply Z.ltb_ge in Hgate; auto.
    + intros [-> Hgate]; apply Z.ltb_ge in Hgate; rewrite Hgate.
      destruct (qualifying _) as [|q rest]; [simpl; lia|].
      rewrite activated_eq; destruct (click_method q); simpl; lia.
  - rewrite scan_returns; split.
    + destruct (paused (vars w)); [discriminate|].
      destruct (_ <? _) eqn:Hgate; [discriminate|].
      apply Z.ltb_ge in Hgate.
      destruct (qualifying _) as [|q rest]; [discriminate|eauto 7].
    + intros [-> [Hgate [q [rest [-> ->]]]]].
      apply Z.ltb_ge in Hgate; now rewrite Hgate.
  - rewrite clickIfFound_eq; intros [->|Hgate]; [reflexivity|].
    apply Z.ltb_lt in Hgate; rewrite Hgate.
    destruct (paused (vars w)); reflexivity.
  - rewrite scan_clicks, clickIfFound_exec; intros -> Hgate.
    apply Z.ltb_ge in Hgate; rewrite Hgate.
    destruct (qualifying _) as [|q rest]; [reflexivity|].
    rewrite activated_eq; destruct (click_method q); [|reflexivity].
    intros Hq; now apply cons_neq_self in Hq.
Qed.

Lemma scan_activates_witness :
  (exists q,
      clicked (host (exec clickIfFound (at_time 2500 sample_document running_world)))
      = (2500, q) :: clicked (host (at_time 2500 sample_document running_world)))
  /\ clickIfFound (at_time 2499 sample_document running_world)
     = (Returns tt, at_time 2499 sample_document running_world)
  /\ returns clickIfFound (at_time 2500 svg_first_document running_world) = false.
Proof.
  assert (Hgate : COOLDOWN_MS <= 2500 - 0) by (unfold COOLDOWN_MS; lia).
  split; [|split].
  - apply (scan_activates_exactly_when (at_time 2500 sample_document running_world)).
    split; [reflexivity|split; [exact Hgate|]].
    exists padded_button, [continue_button]; split; reflexivity.
  - apply (scan_activates_exactly_when (at_time 2499 sample_document running_world)).
    right; unfold COOLDOWN_MS; simpl; lia.
  - apply (scan_activates_exactly_when (at_time 2500 svg_first_document running_world)).
    split; [reflexivity|split; [exact Hgate|]].
    exists svg_button, [continue_button]; split; reflexivity.
Defined.

(* ================================================================== *)
(** ** The text test *)

Lemma trimStart_skip (l s : JSString.t) :
  forallb JSString.isTrimmed l = true ->
  JSString.trimStart (l ++ s) = JSString.trimStart s.
Proof.
  induction l as [|c l IH]; simpl; [reflexivity|].
  intros H; apply andb_true_iff in H as [-> Hl]; exact (IH Hl).
Qed.

Lemma forallb_rev {A} (p : A -> bool) (l : list A) :
  forallb p l = true -> forallb p (rev l) = true.
Proof.
  rewrite !forallb_forall; intros H x Hx; apply H, in_rev; exact Hx.
Qed.

(** X5.  The text test accepts exactly the texts that are ['Continue']
    with any white space and line terminators before and after it: padding
    is accepted, any other difference is not. *)
Theorem is_Continue_iff_padded :
  forall el : Element,
    is_Continue el = true <->
    exists l r,
      textContent el = l ++ JSString.lit "Continue" ++ r
      /\ forallb JSString.isTrimmed l = true
      /\ forallb JSString.isTrimmed r = true.
Proof.
  intros el; rewrite is_Continue_true_iff; split.
  - intros H; destruct (trim_middle (textContent el)) as [l [r [Ht [Hl Hr]]]].
    exists l, r; rewrite <- H; auto.
  - intros [l [r [-> [Hl Hr]]]].
    unfold JSString.trim, JSString.trimEnd.
    rewrite (trimStart_skip l _ Hl).
    change (JSString.trimStart (JSString.lit "Continue" ++ r))
      with (JSString.lit "Continue" ++ r).
    rewrite rev_app_distr, (trimStart_skip (rev r) _ (forallb_rev _ _ Hr)).
    reflexivity.
Qed.

Lemma is_Continue_padded_witness : is_Continue padded_button = true.
Proof.
  apply (is_Continue_iff_padded padded_button).
  exists (JSString.lit "  "), (JSString.lit "  "); repeat split.
Defined.

(* ================================================================== *)
(** ** Trigger sources over whole runs *)

(** X6.  At every point of every run the browser holds, of this script,
    one timer and one subscription while the session is Running, the ones
    [intervalId] and [observer] name, and none while it is Paused or
    Stopped: trigger sources are never duplicated and never left behind. *)
Theorem trigger_sources_follow_session :
  forall (body : bool) (evs : list Event),
    match session_state (run evs (loaded body)) with
    | Running =>
        exists i o,
          intervalId (vars (run evs (loaded body))) = Some i
          /\ intervals (host (run evs (loaded body))) = [i]
          /\ observer (vars (run evs (loaded body))) = Some o
          /\ observing (host (run evs (loaded body))) = [o]
    | Paused | Stopped =>
        intervals (host (run evs (loaded body))) = []
        /\ observing (host (run evs (loaded body))) = []
    end.
Proof.
  intros body evs.
  destruct (run_consistent evs (loaded body) (loaded_consistent body)) as [Ht _].
  destruct (session_state (run evs (loaded body))) eqn:Hs.
  - apply idle_triggers; [exact Ht|congruence].
  - apply (running_triggers _ Ht Hs).
  - apply idle_triggers; [exact Ht|congruence].
Qed.

(** X7.  Within a turn of the event loop the scan state (the
    activations, [lastClick], the query count) changes only in a task of
    the timer [intervalId] names or a notice of the observer [observer]
    names, and only while the session is Running: the listeners of the
    buttons and the console command do not query, click or write
    [lastClick] in their own call, a cleared timer or a disconnected
    observer does nothing, and nothing scans while Paused or Stopped.  What
    a listener changes in the document reaches the scan as a notice of the
    observer, a turn of its own: [panel.remove()] changes the children of
    the observed [document.body], and in a Running session the notice that
    follows a press of Close runs the scan like any other. *)
Theorem only_live_triggers_scan :
  forall (body : bool) (evs : list Event) (ev : Event),
    (scan_state (dispatch ev (run evs (loaded body))) <> scan_state (run evs (loaded body)) ->
     session_state (run evs (loaded body)) = Running
     /\ exists (h : handle) (now : Z) (doc : list Element),
          (ev = TimerTask h now doc /\ intervalId (vars (run evs (loaded body))) = Some h)
          \/ (ev = MutationNotice h now doc
              /\ observer (vars (run evs (loaded body))) = Some h))
    /\ (session_state (run evs (loaded body)) = Running ->
        exists o : handle,
          observer (vars (run evs (loaded body))) = Some o
          /\ forall (now : Z) (doc : list Element),
               dispatch (MutationNotice o now doc)
                        (dispatch (Press Close) (run evs (loaded body)))
               = detached (exec clickIfFound (at_time now doc (run evs (loaded body))))).
Proof.
  intros body evs ev.
  destruct (run_consistent evs (loaded body) (loaded_consistent body)) as [Ht _].
  generalize dependent (run evs (loaded body)); intros w Ht; split.
  - intros Hne.
    destruct ev as [id now doc|o now doc|b| |present]; simpl in Hne.
    + destruct (mem id (intervals (host w))) eqn:Hm; [|now contradiction Hne].
      unfold triggers_match, session_state in *.
      destruct (intervalId (vars w)) as [i|]; simpl.
      * destruct Ht as [Hi _]; rewrite Hi in Hm; apply mem_singleton in Hm; subst.
        split; [reflexivity|]; exists i, now, doc; auto.
      * destruct Ht as [Hi _]; rewrite Hi in Hm; discriminate.
    + destruct (mem o (observing (host w))) eqn:Hm; [|now contradiction Hne].
      unfold triggers_match, session_state in *.
      destruct (intervalId (vars w)) as [i|]; simpl.
      * destruct Ht as [_ [_ [o' [Hob Ho]]]]; rewrite Ho in Hm.
        apply mem_singleton in Hm; subst.
        split; [reflexivity|]; exists o', now, doc; auto.
      * destruct Ht as [_ Ho]; rewrite Ho in Hm; discriminate.
    + destruct (_ && _); [|now contradiction Hne].
      now rewrite listener_scan_state in Hne.
    + destruct (stopAutoContinue _); [|now contradiction Hne].
      now rewrite stopAuto_scan_state in Hne.
    + now contradiction Hne.
  - intros Hs.
    destruct (running_triggers _ Ht Hs) as [_ [i [o [_ [_ [Ho Hov]]]]]].
    exists o; split; [exact Ho|]; intros now doc.
    rewrite close_detaches.
    destruct (dispatch_scan_detached w o now doc) as [_ ->].
    simpl; now rewrite Hov, mem_self.
Qed.

Lemma only_live_triggers_witness :
  (session_state (run [] (loaded true)) = Running
   /\ exists (h : handle) (now : Z) (doc : list Element),
        (TimerTask 1%positive 5000 sample_document = TimerTask h now doc
         /\ intervalId (vars (run [] (loaded true))) = Some h)
        \/ (TimerTask 1%positive 5000 sample_document = MutationNotice h now doc
            /\ observer (vars (run [] (loaded true))) = Some h))
  /\ exists o : handle,
       observer (vars (run [] (loaded true))) = Some o
       /\ forall (now : Z) (doc : list Element),
            dispatch (MutationNotice o now doc) (dispatch (Press Close) (run [] (loaded true)))
            = detached (exec clickIfFound (at_time now doc (run [] (loaded true)))).
Proof.
  split.
  - apply (only_live_triggers_scan true [] (TimerTask 1%positive 5000 sample_document)).
    discriminate.
  - apply (only_live_triggers_scan true [] (Press Close)).
    reflexivity.
Defined.



(* ================================================================== *)
(** ** Loading without a body, starting without a body *)

Lemma dispatch_inert (ev : Event) (w : World) : inert w -> inert (dispatch ev w).
Proof.
  unfold inert; intros [Hv [Ha [He [Hi [Ho [Hc [Hq Hl]]]]]]].
  destruct ev as [id now doc|o now doc|b| |present]; simpl.
  - rewrite Hi; simpl; auto 10.
  - rewrite Ho; simpl; auto 10.
  - rewrite Ha; simpl; auto 10.
  - rewrite He; auto 10.
  - auto 10.
Qed.

(** X9.  Pasted into a document without a body the script throws at
    [appendChild] before it has done anything, and stays without effect
    whatever happens later, also if a body appears: the variables keep their
    initial values, no timer or subscription exists, nothing is queried,
    clicked or printed, the panel never enters the document and
    [window.stopAutoContinue] is never defined. *)
Theorem load_without_body_is_inert :
  forall evs : list Event,
    returns script (pristine false) = false
    /\ inert (run evs (loaded false))
    /\ session_state (run evs (loaded false)) = Stopped.
Proof.
  intros evs.
  assert (H : inert (run evs (loaded false))).
  { assert (H0 : inert (loaded false)) by (repeat split).
    revert H0; generalize (loaded false).
    induction evs as [|ev evs IH]; intros w H; simpl; [exact H|].
    apply IH, dispatch_inert, H. }
  repeat split; try apply H.
  destruct H as [Hv _]; unfold session_state; rewrite Hv; reflexivity.
Qed.

(** X10.  After a [startAuto()] that failed for want of [document.body]
    the session runs on its timer alone: tasks of the new timer scan, no
    mutation notice does, and a further [startAuto()] does nothing, also
    once a body is there, so the subscription is never made up for.
    [stopAuto()] and [pauseAuto()] still work: they return, clear the timer
    and leave the session Stopped, respectively Paused, with no trigger
    source; a start after that, with a body, attaches both. *)
Theorem failed_start_runs_on_timer_until_stopped :
  forall (w : World) (present : bool) (now : Z) (doc : list Element),
    triggers_match w ->
    session_state w <> Running ->
    document_body (host w) = false ->
    startAuto (with_body present (exec startAuto w))
    = (Returns tt, with_body present (exec startAuto w))
    /\ dispatch (TimerTask (next_handle (host w)) now doc) (exec startAuto w)
       = exec clickIfFound (at_time now doc (exec startAuto w))
    /\ (forall o : handle,
          dispatch (MutationNotice o now doc) (exec startAuto w)
          = at_time now doc (exec startAuto w))
    /\ (returns stopAuto (exec startAuto w) = true
        /\ session_state (exec stopAuto (exec startAuto w)) = Stopped
        /\ triggers_match (exec stopAuto (exec startAuto w)))
    /\ (returns pauseAuto (exec startAuto w) = true
        /\ session_state (exec pauseAuto (exec startAuto w)) = Paused
        /\ triggers_match (exec pauseAuto (exec startAuto w)))
    /\ triggers_match (exec startAuto (with_body true (exec stopAuto (exec startAuto w))))
    /\ session_state (exec startAuto (with_body true (exec stopAuto (exec startAuto w))))
       = Running.
Proof.
  unfold triggers_match, session_state, with_body, at_time;
    intros w present now page; fields w; js.
  destruct iid; simpl; [congruence|].
  intros [-> ->] _ ->; unfold mem, without; cbn.
  rewrite !Pos.eqb_refl; cbn.
  repeat split; eauto.
Qed.

Lemma failed_start_recovery_witness :
  session_state (exec stopAuto (exec startAuto bodyless_world)) = Stopped
  /\ session_state
       (exec startAuto (with_body true (exec stopAuto (exec startAuto bodyless_world))))
     = Running.
Proof.
  assert (Ht : triggers_match bodyless_world) by (split; reflexivity).
  assert (Hs : session_state bodyless_world <> Running) by discriminate.
  destruct (failed_start_runs_on_timer_until_stopped bodyless_world true 0 [] Ht Hs eq_refl)
    as [_ [_ [_ [[_ [H1 _]] [_ [_ H2]]]]]].
  split; [exact H1|exact H2].
Defined.

(* ================================================================== *)
(** ** The variant with a log box *)

Lemma variant_for_buttons_find (fmt : Variant.Formats) (now : Z)
      (buttons : list Element) (v : Variant.VWorld) :
  Variant.for_buttons fmt now buttons v =
  match find (fun b => isVisible b && is_Continue b) buttons with
  | Some b => Variant.activate fmt now b v
  | None => (Returns tt, v)
  end.
Proof.
  induction buttons as [|b rest IH]; simpl; [reflexivity|].
  destruct (isVisible b); simpl; [|exact IH].
  destruct (is_Continue b); [reflexivity|exact IH].
Qed.

(** The variant's world after a scan. *)
Lemma variant_clickIfFound_exec (fmt : Variant.Formats) (w : World) (log : list JSString.t) :
  Variant.vexec (Variant.clickIfFound fmt) (Variant.mkVWorld w log) =
  if paused (vars w) then Variant.mkVWorld w log
  else if clock (host w) - lastClick (vars w) <? COOLDOWN_MS then Variant.mkVWorld w log
  else match qualifying (document (host w)) with
       | q :: _ =>
           if click_method q
           then Variant.mkVWorld
                  (variant_printed fmt q w)
                  (log ++ [Variant.toLocaleString fmt
                             (Variant.new_Date fmt (variant_printed fmt q w))])
           else Variant.mkVWorld (queried w) log
       | [] => Variant.mkVWorld (queried w) log
       end.
Proof.
  unfold Variant.vexec, Variant.clickIfFound, Variant.vbind, Variant.lift, Variant.vret,
    read, Date_now; cbn.
  destruct (paused (vars w)); [reflexivity|]; cbn.
  destruct (clock (host w) - lastClick (vars w) <? COOLDOWN_MS); [reflexivity|].
  unfold querySelectorAll; cbn.
  rewrite variant_for_buttons_find, find_filter, qualifying_filter.
  destruct (qualifying (document (host w))) as [|q l]; [reflexivity|].
  unfold Variant.activate, Variant.addLogEntry, Variant.Date_new, Variant.vbind,
    Variant.lift, click, read, write, throw, console_log; cbn.
  destruct (click_method q); reflexivity.
Qed.

Lemma quiet_fields (w1 w2 : World) :
  quiet w1 = quiet w2 ->
  vars w1 = vars w2 /\ panel w1 = panel w2
  /\ clock (host w1) = clock (host w2)
  /\ document (host w1) = document (host w2)
  /\ intervals (host w1) = intervals (host w2)
  /\ observing (host w1) = observing (host w2)
  /\ stopAutoContinue (host w1) = stopAutoContinue (host w2)
  /\ clicked (host w1) = clicked (host w2).
Proof.
  destruct w1 as [v1 p1 h1], w2 as [v2 p2 h2]; destruct h1, h2.
  unfold quiet, with_host, set_console; cbn.
  intros H; injection H; intros; subst; auto 10.
Qed.

(** Split two worlds that agree but for their console. *)
Ltac same_but_console H :=
  match type of H with
  | quiet ?w1 = quiet ?w2 =>
      destruct w1 as [[? ? ? ?] [? ? ? ?] [? ? ? ? ? ? ? ? ? ?]];
      destruct w2 as [[last iid obs psd] [sdis pdis tdis att]
                      [clk doc body ivs obsv nh qs clks cons exposed]];
      unfold quiet, with_host, set_console in H; cbn in H;
      injection H; intros; subst
  end.

Ltac variant_unfold :=
  unfold Variant.vexec, Variant.lift, Variant.listener, Variant.script,
    Variant.startAuto, Variant.pauseAuto, Variant.stopAuto, quiet, logged in *.

Lemma variant_scan_simulates (fmt : Variant.Formats) (v : Variant.VWorld) (w : World) :
  quiet (Variant.base v) = quiet w ->
  quiet (Variant.base (Variant.vexec (Variant.clickIfFound fmt) v))
  = quiet (exec clickIfFound w).
Proof.
  destruct v as [w1 log]; simpl; intros H.
  rewrite variant_clickIfFound_exec, clickIfFound_exec.
  same_but_console H; cbn.
  destruct psd; [reflexivity|].
  destruct (_ <? _); [reflexivity|].
  destruct (filter qualifies doc) as [|q rest]; [reflexivity|].
  rewrite activated_eq; destruct (click_method q); reflexivity.
Qed.

Lemma variant_listener_simulates (b : Button) (v : Variant.VWorld) (w : World) :
  quiet (Variant.base v) = quiet w ->
  quiet (Variant.base (Variant.vexec (Variant.lift (Variant.listener b)) v))
  = quiet (exec (listener b) w).
Proof.
  destruct v as [w1 log]; simpl; intros H.
  same_but_console H; variant_unfold; destruct b; js;
    destruct iid, obs, body; reflexivity.
Qed.

Lemma variant_dispatch_simulates (fmt : Variant.Formats) (ev : Event)
      (v : Variant.VWorld) (w : World) :
  quiet (Variant.base v) = quiet w ->
  quiet (Variant.base (Variant.dispatch fmt ev v)) = quiet (dispatch ev w).
Proof.
  intros H; destruct (quiet_fields _ _ H) as [Hv [Hp [_ [_ [Hi [Ho [He _]]]]]]].
  assert (Hat : forall t page,
             quiet (Variant.base (Variant.at_time t page v)) = quiet (at_time t page w)).
  { intros t page; destruct v as [w1 log]; simpl in *.
    clear - H; same_but_console H; reflexivity. }
  destruct ev as [id now doc|o now doc|b| |present]; simpl.
  - rewrite Hi; destruct (mem id (intervals (host w)));
      [apply variant_scan_simulates|]; apply Hat.
  - rewrite Ho; destruct (mem o (observing (host w)));
      [apply variant_scan_simulates|]; apply Hat.
  - unfold disabled; rewrite Hp.
    destruct (panel_attached (panel w) && _); [apply variant_listener_simulates|]; exact H.
  - rewrite He; destruct (stopAutoContinue (host w)); [|exact H].
    apply (variant_listener_simulates Stop); exact H.
  - destruct v as [w1 log]; simpl in *.
    clear - H; same_but_console H; reflexivity.
Qed.

(** X11.  The variant with the log box and the first script do the same
    in every run: after the same events their variables, buttons, timers,
    subscriptions and activations are equal; the worlds differ in the
    console lines only. *)
Theorem variant_differs_in_console_only :
  forall (fmt : Variant.Formats) (body : bool) (evs : list Event),
    quiet (Variant.base (Variant.run fmt evs (Variant.loaded body)))
    = quiet (run evs (loaded body)).
Proof.
  intros fmt body evs.
  assert (H0 : quiet (Variant.base (Variant.loaded body)) = quiet (loaded body))
    by (destruct body; reflexivity).
  revert H0; generalize (Variant.loaded body), (loaded body).
  induction evs as [|ev evs IH]; intros v w H; simpl; [exact H|].
  apply IH, variant_dispatch_simulates, H.
Qed.

Lemma variant_listener_clicked (b : Button) (w : World) :
  clicked (host (exec (Variant.listener b) w)) = clicked (host w).
Proof.
  fields w; variant_unfold; destruct b; js; destruct iid, obs, body; reflexivity.
Qed.

Lemma variant_scan_log (fmt : Variant.Formats) (v : Variant.VWorld) :
  log_counts v -> log_counts (Variant.vexec (Variant.clickIfFound fmt) v).
Proof.
  destruct v as [w log]; unfold log_counts.
  rewrite variant_clickIfFound_exec; simpl.
  destruct (paused (vars w)); [auto|].
  destruct (_ <? _); [auto|].
  destruct (qualifying (document (host w))) as [|q rest]; simpl; [auto|].
  destruct (click_method q); simpl; [|auto].
  intros H; rewrite length_app; simpl; lia.
Qed.

Lemma variant_scan_appends (fmt : Variant.Formats) (v : Variant.VWorld) :
  exists later,
    Variant.logContainer (Variant.vexec (Variant.clickIfFound fmt) v)
    = Variant.logContainer v ++ later.
Proof.
  destruct v as [w log]; rewrite variant_clickIfFound_exec; simpl.
  destruct (paused (vars w)); [exists []; now rewrite app_nil_r|].
  destruct (_ <? _); [exists []; now rewrite app_nil_r|].
  destruct (qualifying (document (host w))) as [|q rest];
    [exists []; now rewrite app_nil_r|].
  destruct (click_method q); simpl; [eauto|exists []; now rewrite app_nil_r].
Qed.

Lemma variant_lift_log {A} (m : JS A) (v : Variant.VWorld) :
  Variant.logContainer (Variant.vexec (Variant.lift m) v) = Variant.logContainer v.
Proof.
  unfold Variant.vexec, Variant.lift; destruct (m (Variant.base v)); reflexivity.
Qed.

Lemma variant_lift_base {A} (m : JS A) (v : Variant.VWorld) :
  Variant.base (Variant.vexec (Variant.lift m) v) = exec m (Variant.base v).
Proof.
  unfold Variant.vexec, Variant.lift, exec; destruct (m (Variant.base v)); reflexivity.
Qed.

Lemma variant_dispatch_log (fmt : Variant.Formats) (ev : Event) (v : Variant.VWorld) :
  log_counts v -> log_counts (Variant.dispatch fmt ev v).
Proof.
  intros H.
  assert (Hl : forall b, log_counts (Variant.vexec (Variant.lift (Variant.listener b)) v)).
  { intros b; unfold log_counts.
    now rewrite variant_lift_log, variant_lift_base, variant_listener_clicked. }
  destruct ev as [id now doc|o now doc|b| |present]; simpl.
  - destruct (mem id _); [apply variant_scan_log|]; exact H.
  - destruct (mem o _); [apply variant_scan_log|]; exact H.
  - destruct (_ && _); [apply Hl|exact H].
  - destruct (stopAutoContinue _); [apply (Hl Stop)|exact H].
  - exact H.
Qed.

Lemma variant_dispatch_appends (fmt : Variant.Formats) (ev : Event) (v : Variant.VWorld) :
  exists later,
    Variant.logContainer (Variant.dispatch fmt ev v) = Variant.logContainer v ++ later.
Proof.
  assert (Hsame : exists later : list JSString.t,
             Variant.logContainer v = Variant.logContainer v ++ later)
    by (exists []; now rewrite app_nil_r).
  destruct ev as [id now doc|o now doc|b| |present]; simpl.
  - destruct (mem id _); [|exact Hsame].
    apply (variant_scan_appends fmt (Variant.at_time now doc v)).
  - destruct (mem o _); [|exact Hsame].
    apply (variant_scan_appends fmt (Variant.at_time now doc v)).
  - destruct (_ && _); [rewrite variant_lift_log|]; exact Hsame.
  - destruct (stopAutoContinue _); [rewrite variant_lift_log|]; exact Hsame.
  - exact Hsame.
Qed.

Lemma variant_run_appends (fmt : Variant.Formats) (evs : list Event) (v : Variant.VWorld) :
  exists later,
    Variant.logContainer (Variant.run fmt evs v) = Variant.logContainer v ++ later.
Proof.
  revert v; induction evs as [|ev evs IH]; intros v; simpl.
  - exists []; now rewrite app_nil_r.
  - destruct (IH (Variant.dispatch fmt ev v)) as [l2 H2].
    destruct (variant_dispatch_appends fmt ev v) as [l1 H1].
    exists (l1 ++ l2); rewrite app_assoc, <- H1; exact H2.
Qed.

(** X12.  At every point of every run of the variant the log box holds
    exactly as many lines as activations have been made: each activation
    appends one line, nothing else writes to the log box, and no activation
    goes unlogged.  Lines once written stay: the log box only grows at its
    end. *)
Theorem log_box_counts_activations :
  forall (fmt : Variant.Formats) (body : bool) (evs more : list Event),
    List.length (Variant.logContainer (Variant.run fmt evs (Variant.loaded body)))
    = List.length (clicked (host (Variant.base (Variant.run fmt evs (Variant.loaded body)))))
    /\ exists later,
         Variant.logContainer (Variant.run fmt (evs ++ more) (Variant.loaded body))
         = Variant.logContainer (Variant.run fmt evs (Variant.loaded body)) ++ later.
Proof.
  intros fmt body evs more; split.
  - assert (H0 : log_counts (Variant.loaded body)) by (destruct body; reflexivity).
    revert H0; generalize (Variant.loaded body).
    induction evs as [|ev evs IH]; intros v H; simpl; [exact H|].
    apply IH, variant_dispatch_log, H.
  - unfold Variant.run; rewrite fold_left_app.
    apply (variant_run_appends fmt more).
Qed.

(* ================================================================== *)
(** ** Dragging the panel *)

Section DragProofs.

Context `{Drag.Numbers}.

Lemma registered_In (c : Drag.Closure) (l : list Drag.Closure) :
  In c l -> Drag.registered c l = true.
Proof.
  intros Hin; unfold Drag.registered; apply existsb_exists.
  exists c; split; [exact Hin|apply Nat.eqb_refl].
Qed.

Lemma unregister_absent (c : Drag.Closure) (l : list Drag.Closure) :
  Drag.registered c l = false -> Drag.unregister c l = l.
Proof.
  unfold Drag.registered, Drag.unregister.
  induction l as [|c' l IH]; simpl; [reflexivity|].
  intros Hn; apply orb_false_iff in Hn as [-> Hl]; simpl.
  now rewrite (IH Hl).
Qed.

Lemma unregister_all (l : list Drag.Closure) :
  fold_left (fun acc c => Drag.unregister c acc) l l = [].
Proof.
  assert (Hgen : forall ks acc,
             (forall c, In c acc -> In c ks) ->
             fold_left (fun acc c => Drag.unregister c acc) ks acc = []).
  { induction ks as [|k ks IH]; intros acc Hsub; simpl.
    - destruct acc as [|c acc]; [reflexivity|destruct (Hsub c (or_introl eq_refl))].
    - apply IH; intros c Hc.
      unfold Drag.unregister in Hc; apply filter_In in Hc as [Hc Hne].
      destruct (Hsub c Hc) as [<-|Hin]; [|exact Hin].
      rewrite Nat.eqb_refl in Hne; discriminate. }
  apply Hgen; auto.
Qed.

(** What a [mouseup] does to a page whose two listener lists agree. *)
Lemma mouseup_fold (ks : list Drag.Closure) (p : Drag.Page) :
  Drag.mousemove p = Drag.mouseup p ->
  fold_left (fun p c => if Drag.registered c (Drag.mouseup p)
                        then Drag.onMouseUp c p else p) ks p
  = {| Drag.style := Drag.style p;
       Drag.mousemove := fold_left (fun acc c => Drag.unregister c acc) ks (Drag.mouseup p);
       Drag.mouseup := fold_left (fun acc c => Drag.unregister c acc) ks (Drag.mouseup p);
       Drag.next_grab := Drag.next_grab p |}.
Proof.
  revert p; induction ks as [|k ks IH]; intros p Hp; simpl.
  - destruct p; simpl in *; now subst.
  - destruct (Drag.registered k (Drag.mouseup p)) eqn:Hr.
    + rewrite IH; [|simpl; now rewrite Hp]. reflexivity.
    + rewrite IH; [|exact Hp]. now rewrite (unregister_absent _ _ Hr).
Qed.

(** What a [mousemove] does: the lists stay, and the last listener called
    decides the position. *)
Lemma mousemove_fold (e : Drag.MouseEvent) (ks : list Drag.Closure) (p : Drag.Page) :
  (forall c, In c ks -> In c (Drag.mousemove p)) ->
  let p' := fold_left (fun p c => if Drag.registered c (Drag.mousemove p)
                                  then Drag.onMouseMove c e p else p) ks p in
  Drag.mousemove p' = Drag.mousemove p
  /\ Drag.mouseup p' = Drag.mouseup p
  /\ Drag.next_grab p' = Drag.next_grab p
  /\ Drag.style_right (Drag.style p') = Drag.style_right (Drag.style p)
  /\ Drag.style_bottom (Drag.style p') = Drag.style_bottom (Drag.style p)
  /\ match rev ks with
     | [] => p' = p
     | c :: _ =>
         Drag.style_left (Drag.style p')
         = Drag.Px (Drag.add (Drag.origX c) (Drag.sub (Drag.clientX e) (Drag.startX c)))
         /\ Drag.style_top (Drag.style p')
            = Drag.Px (Drag.add (Drag.origY c) (Drag.sub (Drag.clientY e) (Drag.startY c)))
     end.
Proof.
  induction ks as [|k ks IH] using rev_ind; intros Hsub; simpl.
  - auto 10.
  - rewrite fold_left_app, rev_app_distr; simpl.
    destruct IH as [Hm [Hu [Hn [Hr [Hb _]]]]].
    { intros c Hc; apply Hsub, in_or_app; left; exact Hc. }
    rewrite Hm, (registered_In k); [|apply Hsub, in_or_app; right; left; reflexivity].
    simpl; auto 10.
Qed.

Lemma paired_dispatch (ev : Drag.Mouse) (p : Drag.Page) :
  Drag.mousemove p = Drag.mouseup p ->
  Drag.mousemove (Drag.dispatch ev p) = Drag.mouseup (Drag.dispatch ev p).
Proof.
  intros Hp; destruct ev as [e rect|e|e]; simpl.
  - now rewrite Hp.
  - destruct (mousemove_fold e (Drag.mousemove p) p (fun c Hc => Hc)) as [-> [-> _]].
    exact Hp.
  - rewrite (mouseup_fold _ _ Hp); reflexivity.
Qed.

Lemma paired_run (evs : list Drag.Mouse) (p : Drag.Page) :
  Drag.mousemove p = Drag.mouseup p ->
  Drag.mousemove (Drag.run evs p) = Drag.mouseup (Drag.run evs p).
Proof.
  revert p; induction evs as [|ev evs IH]; intros p Hp; simpl; [exact Hp|].
  apply IH, paired_dispatch, Hp.
Qed.

Lemma drag_run_app (evs evs' : list Drag.Mouse) (p : Drag.Page) :
  Drag.run (evs ++ evs') p = Drag.run evs' (Drag.run evs p).
Proof. apply fold_left_app. Qed.

Lemma style_ext (s : Drag.Style) (l t r b : Drag.Css) :
  Drag.style_left s = l -> Drag.style_top s = t ->
  Drag.style_right s = r -> Drag.style_bottom s = b ->
  s = {| Drag.style_left := l; Drag.style_top := t;
         Drag.style_right := r; Drag.style_bottom := b |}.
Proof. destruct s; simpl; congruence. Qed.

Lemma moves_keep (ms : list Drag.Mouse) (p : Drag.Page) :
  forallb Drag.is_MouseMove ms = true ->
  Drag.mousemove (Drag.run ms p) = Drag.mousemove p
  /\ Drag.style_right (Drag.style (Drag.run ms p)) = Drag.style_right (Drag.style p)
  /\ Drag.style_bottom (Drag.style (Drag.run ms p)) = Drag.style_bottom (Drag.style p).
Proof.
  revert p; induction ms as [|m ms IH]; intros p Hms; [auto|].
  cbn [forallb] in Hms; apply andb_true_iff in Hms as [Hm Hms].
  destruct m as [? ?|em|?]; try discriminate.
  destruct (mousemove_fold em (Drag.mousemove p) p (fun c Hc => Hc))
    as [Hl [_ [_ [Hr [Hb _]]]]].
  destruct (IH (Drag.dispatch (Drag.MouseMove em) p) Hms) as [Hl' [Hr' Hb']].
  change (Drag.run (Drag.MouseMove em :: ms) p)
    with (Drag.run ms (Drag.dispatch (Drag.MouseMove em) p)).
  rewrite Hl', Hr', Hb'; simpl; auto.
Qed.

End DragProofs.

(** X13.  A [mouseup] that reaches [document] ends every drag at once:
    however many times the handle was grabbed before, afterwards no
    [mousemove] and no [mouseup] listener of the script is left, the release
    itself has not moved the panel, and a later [mousemove] does not move it
    either. *)
Theorem mouseup_removes_every_drag_listener :
  forall (N : Drag.Numbers) (evs : list Drag.Mouse) (e e' : Drag.MouseEvent),
    Drag.mousemove (Drag.run (evs ++ [Drag.MouseUp e]) Drag.initial) = []
    /\ Drag.mouseup (Drag.run (evs ++ [Drag.MouseUp e]) Drag.initial) = []
    /\ Drag.style (Drag.run (evs ++ [Drag.MouseUp e]) Drag.initial)
       = Drag.style (Drag.run evs Drag.initial)
    /\ Drag.dispatch (Drag.MouseMove e') (Drag.run (evs ++ [Drag.MouseUp e]) Drag.initial)
       = Drag.run (evs ++ [Drag.MouseUp e]) Drag.initial.
Proof.
  intros N evs e e'; rewrite drag_run_app; simpl.
  pose proof (paired_run evs Drag.initial eq_refl) as Hp.
  rewrite (mouseup_fold _ _ Hp), unregister_all; simpl; auto.
Qed.

(** X14.  During a drag the panel follows the latest grab: after a
    [mousedown] on the handle and any number of moves, the panel is at the
    place it had at the grab plus the pointer's offset from the grab, with
    [right] and [bottom] set to ['auto'], whatever the moves in between were
    and whatever earlier drags are still unfinished. *)
Theorem panel_follows_latest_grab :
  forall (N : Drag.Numbers) (evs moves : list Drag.Mouse)
         (e last : Drag.MouseEvent) (rect : Drag.Rect),
    forallb Drag.is_MouseMove moves = true ->
    Drag.style
      (Drag.run (evs ++ Drag.MouseDown e rect :: moves ++ [Drag.MouseMove last]) Drag.initial)
    = {| Drag.style_left :=
           Drag.Px (Drag.add (Drag.rect_left rect)
                             (Drag.sub (Drag.clientX last) (Drag.clientX e)));
         Drag.style_top :=
           Drag.Px (Drag.add (Drag.rect_top rect)
                             (Drag.sub (Drag.clientY last) (Drag.clientY e)));
         Drag.style_right := Drag.Auto;
         Drag.style_bottom := Drag.Auto |}.
Proof.
  intros N evs moves e last rect Hmoves.
  rewrite drag_run_app; simpl.
  set (p0 := Drag.run evs Drag.initial).
  set (c := {| Drag.grab := Drag.next_grab p0;
               Drag.startX := Drag.clientX e; Drag.startY := Drag.clientY e;
               Drag.origX := Drag.rect_left rect; Drag.origY := Drag.rect_top rect |}).
  change (fold_left (fun p ev => Drag.dispatch ev p) (moves ++ [Drag.MouseMove last])
            (Drag.initDrag e rect p0))
    with (Drag.run (moves ++ [Drag.MouseMove last]) (Drag.initDrag e rect p0)).
  rewrite drag_run_app; simpl.
  destruct (moves_keep moves (Drag.initDrag e rect p0) Hmoves) as [Hl [Hr Hb]].
  set (p1 := Drag.run moves (Drag.initDrag e rect p0)) in *.
  simpl in Hl, Hr, Hb.
  assert (Hsub : forall c', In c' (Drag.mousemove p0 ++ [c]) -> In c' (Drag.mousemove p1))
    by (rewrite Hl; auto).
  destruct (mousemove_fold last _ p1 Hsub) as [_ [_ [_ [Hr' [Hb' Hpos]]]]].
  rewrite rev_app_distr in Hpos; simpl in Hpos.
  rewrite Hl.
  destruct Hpos as [Hx Hy].
  apply style_ext; [exact Hx|exact Hy|rewrite <- Hr; exact Hr'|rewrite <- Hb; exact Hb'].
Qed.

Lemma panel_follows_witness :
  Drag.style
    (Drag.run
       ([Drag.MouseDown (Drag.pointer_at 5 5) (Drag.rect_at 100 200)]
        ++ Drag.MouseDown (Drag.pointer_at 10 20) (Drag.rect_at 300 400)
           :: [Drag.MouseMove (Drag.pointer_at 11 22)]
           ++ [Drag.MouseMove (Drag.pointer_at 15 18)])
       (@Drag.initial Drag.whole_numbers))
  = {| Drag.style_left := @Drag.Px Drag.whole_numbers 305;
       Drag.style_top := @Drag.Px Drag.whole_numbers 398;
       Drag.style_right := Drag.Auto; Drag.style_bottom := Drag.Auto |}.
Proof.
  apply (panel_follows_latest_grab Drag.whole_numbers
           [Drag.MouseDown (Drag.pointer_at 5 5) (Drag.rect_at 100 200)]
           [Drag.MouseMove (Drag.pointer_at 11 22)]
           (Drag.pointer_at 10 20) (Drag.pointer_at 15 18) (Drag.rect_at 300 400)).
  reflexivity.
Defined.

(** X15.  Without a [mousedown] on the handle nothing moves the panel:
    moves and releases alone leave its style and the listeners of
    [document] as they were at the start. *)
Theorem no_grab_no_move :
  forall (N : Drag.Numbers) (evs : list Drag.Mouse),
    forallb (fun ev => negb (Drag.is_MouseDown ev)) evs = true ->
    Drag.run evs Drag.initial = Drag.initial.
Proof.
  intros N evs; induction evs as [|ev evs IH] using rev_ind; intros Hevs; [reflexivity|].
  rewrite forallb_app in Hevs; apply andb_true_iff in Hevs as [Hevs Hev].
  rewrite drag_run_app, (IH Hevs); simpl in *.
  destruct ev; [discriminate|reflexivity|reflexivity].
Qed.

Lemma no_grab_witness :
  Drag.run [Drag.MouseMove (Drag.pointer_at 1 2); Drag.MouseUp (Drag.pointer_at 3 4)]
           (@Drag.initial Drag.whole_numbers)
  = @Drag.initial Drag.whole_numbers.
Proof.
  apply (no_grab_no_move Drag.whole_numbers
           [Drag.MouseMove (Drag.pointer_at 1 2); Drag.MouseUp (Drag.pointer_at 3 4)]).
  reflexivity.
Defined.
